(** * Simulation-based combinational equivalence checking

    A shallow embedding of [mockturtle/algorithms/simulation_cec.hpp]:
    the split-variable planner ([compute_split_var], [compute_round]),
    the partial simulator ([part_simulator]) and the round controller
    ([simulation_cec_impl::run]) together with the entry point
    [simulation_cec].

    Machine integers are integers of [Z] with the 32-bit wrap-around
    written out.  Truth tables, the network evaluator and the miter
    construction live outside the header; they are modelled from the
    specification and marked as such. *)

From Stdlib Require Import ZArith List Bool Lia.
Import ListNotations.
Local Open Scope Z_scope.

(** ** 32-bit machine integers *)

(** Conversion to [uint32_t]: reduction modulo 2^32. *)
Definition to_uint32 (z : Z) : Z := z mod 2 ^ 32.

(** Conversion to [int] (two's complement, 32 bits). *)
Definition to_int32 (z : Z) : Z := (z + 2 ^ 31) mod 2 ^ 32 - 2 ^ 31.

(** The C++ standard gives no meaning to a shift whose count reaches the
    width of the shifted operand.  The development is parametric in what
    the target computes there: every theorem of a [Section] holds for
    every [Platform]. *)
Class Platform : Type := {
  (** value of the [int] expression [x << k] for [k >= 32] *)
  shl_int_excess : Z -> Z -> Z;
  (** value of the [uint32_t] expression [x >> k] for [k >= 32] *)
  shr_uint32_excess : Z -> Z -> Z
}.

(** A target that masks the shift count to its low five bits. *)
Definition masked_count : Platform := {|
  shl_int_excess x k := to_int32 (Z.shiftl x (k mod 32));
  shr_uint32_excess x k := Z.shiftr x (k mod 32)
|}.

Section MachineShifts.
Context {plat : Platform}.

(** [x << k] on [int]. *)
Definition shl_int (x k : Z) : Z :=
  if k <? 32 then to_int32 (Z.shiftl x k) else shl_int_excess x k.

(** [x >> k] on [uint32_t]. *)
Definition shr_uint32 (x k : Z) : Z :=
  if k <? 32 then Z.shiftr x k else shr_uint32_excess x k.

End MachineShifts.

(** ** Statistics *)

Record simulation_cec_stats : Type := {
  st_split_var : Z;   (* split_var{ 0 } *)
  st_rounds : Z       (* rounds{ 0 } *)
}.

Definition default_stats : simulation_cec_stats :=
  {| st_split_var := 0; st_rounds := 0 |}.

(** ** SplitPlanner *)

Section SplitPlanner.
Context {plat : Platform}.

(** The loop test [(32 + (1 << (m - 3))) * V <= (1 << 29)]: the left
    factor is an [int], converted to [uint32_t] by the multiplication with
    the unsigned [V]; the product wraps modulo 2^32. *)
Definition within_budget (m V : Z) : bool :=
  to_uint32 (to_uint32 (32 + shl_int 1 (to_uint32 (m - 3))) * V)
    <=? to_uint32 (shl_int 1 29).

(** [while (m <= n && within_budget) m++;] -- the value of [m] on exit. *)
Fixpoint split_loop (fuel : nat) (n V m : Z) : Z :=
  match fuel with
  | O => m
  | S fuel' =>
      if (m <=? n) && within_budget m V
      then split_loop fuel' n V (to_uint32 (m + 1))
      else m
  end.

Definition compute_split_var (n V : Z) : Z :=
  if n <=? 6 then n
  else
    let m := split_loop (Z.to_nat n) n V 7 in
    to_uint32 (m - 1).

Definition compute_round (n sp : Z) : Z :=
  let rounds := to_uint32 (shl_int 1 (to_uint32 (n - sp))) in
  rounds.

End SplitPlanner.

(** The bound of the split-variable search as the documentation states it,
    over the integers. *)
Definition budget_ok (m V : Z) : Prop :=
  (32 + 2 ^ (m - 3)) * V <= 2 ^ 29.

Definition budget_okb (m V : Z) : bool :=
  (32 + 2 ^ (m - 3)) * V <=? 2 ^ 29.


(** ** Truth tables *)

(** Modelled from the spec: [kitty::dynamic_truth_table] and its operations
    (construction as zero, complement, variable projection, zero test) are
    not part of the header.  A table over [num_vars] variables is an
    opaque bit-vector of width [2 ^ num_vars]; bit [k] of [bits] is the
    function value at the assignment whose binary code is [k]. *)
Record dynamic_truth_table : Type := {
  num_vars : Z;
  bits : Z
}.

(** Number of bits of a table over [nv] variables. *)
Definition tt_width (nv : Z) : Z := 2 ^ nv.

(** Modelled from the spec: [kitty::dynamic_truth_table tt(nv)], the
    all-zero table. *)
Definition tt_create (nv : Z) : dynamic_truth_table :=
  {| num_vars := nv; bits := 0 |}.

(** Modelled from the spec: [~tt], the bitwise complement within the
    table's width. *)
Definition tt_not (t : dynamic_truth_table) : dynamic_truth_table :=
  {| num_vars := num_vars t;
     bits := Z.land (Z.lnot (bits t)) (Z.ones (tt_width (num_vars t))) |}.

(** The number whose bit [k], for [k] below [w], is [f k]. *)
Fixpoint tabulate (f : Z -> bool) (w : nat) : Z :=
  match w with
  | O => 0
  | S w' =>
      Z.lor (tabulate f w')
            (if f (Z.of_nat w') then Z.shiftl 1 (Z.of_nat w') else 0)
  end.

(** Modelled from the spec: [kitty::create_nth_var(tt, index)], the
    projection table that is true exactly where bit [index] of the
    assignment is 1. *)
Definition create_nth_var (t : dynamic_truth_table) (index : Z)
  : dynamic_truth_table :=
  {| num_vars := num_vars t;
     bits := tabulate (fun k => Z.testbit k index)
                      (Z.to_nat (tt_width (num_vars t))) |}.

(** Modelled from the spec: [kitty::is_const0], the zero test. *)
Definition is_const0 (t : dynamic_truth_table) : bool := bits t =? 0.

(** Modelled from the spec: the node combination rules of the evaluated
    network (conjunction and exclusive or of two tables). *)
Definition tt_and (a b : dynamic_truth_table) : dynamic_truth_table :=
  {| num_vars := num_vars a; bits := Z.land (bits a) (bits b) |}.

Definition tt_xor (a b : dynamic_truth_table) : dynamic_truth_table :=
  {| num_vars := num_vars a; bits := Z.lxor (bits a) (bits b) |}.

(** A table fits its width. *)
Definition tt_fits (t : dynamic_truth_table) : Prop :=
  0 <= bits t < 2 ^ tt_width (num_vars t).

(** ** PartialSimulator *)

Record part_simulator : Type := {
  split_var : Z;
  round : Z
}.

Section PartialSimulator.
Context {plat : Platform}.

Definition compute_constant (s : part_simulator) (value : bool)
  : dynamic_truth_table :=
  let tt := tt_create (split_var s) in
  if value then tt_not tt else tt.

Definition compute_pi (s : part_simulator) (index : Z)
  : dynamic_truth_table :=
  let tt := tt_create (split_var s) in
  if index <? split_var s then
    create_nth_var tt index
  else
    let value :=
      negb (Z.land (shr_uint32 (round s) (to_uint32 (index - split_var s))) 1
            =? 0) in
    if Bool.eqb value false then tt_not tt else tt.

Definition compute_not (s : part_simulator) (value : dynamic_truth_table)
  : dynamic_truth_table :=
  tt_not value.

End PartialSimulator.

(** ** Networks *)

(** The capabilities the template parameter [Ntk] has to offer.
    [simulate] is the generic evaluator instantiated with a
    [part_simulator]; it returns one table per primary output.  [miter]
    yields no network when the two arguments cannot be combined. *)
Class Network (Ntk : Type) : Type := {
  num_pis : Ntk -> Z;
  num_gates : Ntk -> Z;
  simulate : Ntk -> part_simulator -> list dynamic_truth_table;
  miter : Ntk -> Ntk -> option Ntk
}.

(** ** RoundController *)

Section RoundController.
Context {plat : Platform} {Ntk : Type} {net : Network Ntk}.

(** [for (auto &out : tts) if (is_const0(out) == 0) return false;] --
    [true] when the loop runs to its end. *)
Fixpoint outputs_const0 (tts : list dynamic_truth_table) : bool :=
  match tts with
  | [] => true
  | out :: rest =>
      if Bool.eqb (is_const0 out) false then false else outputs_const0 rest
  end.

(** Round [i] with [sv] split variables is clear when all of its output
    tables are zero. *)
Definition round_clear (ntk : Ntk) (sv i : Z) : bool :=
  outputs_const0 (simulate ntk {| split_var := sv; round := i |}).

(** [for (uint32_t i = 0; i < rounds; i++)] of [run], entered at [i].  The
    second component lists the round indices handed to the evaluator, in
    order. *)
Fixpoint round_loop (fuel : nat) (ntk : Ntk) (split_var rounds i : Z)
  : bool * list Z :=
  match fuel with
  | O => (true, [])
  | S fuel' =>
      if i <? rounds then
        let psim := {| split_var := split_var; round := i |} in
        let tts := simulate ntk psim in
        if outputs_const0 tts then
          let '(res, trace) :=
            round_loop fuel' ntk split_var rounds (to_uint32 (i + 1)) in
          (res, i :: trace)
        else (false, [i])
      else (true, [])
  end.

(** The rounds [run] simulates on [ntk], in order. *)
Definition rounds_executed (ntk : Ntk) : list Z :=
  let n := to_uint32 (num_pis ntk) in
  let V := to_uint32 (num_gates ntk) in
  let split_var := compute_split_var n V in
  let rounds := compute_round n split_var in
  snd (round_loop (Z.to_nat rounds) ntk split_var rounds 0).

(** [simulation_cec_impl::run]: the verdict and the statistics object
    [_st] after the call. *)
Definition run (ntk : Ntk) (st : simulation_cec_stats)
  : bool * simulation_cec_stats :=
  let n := to_uint32 (num_pis ntk) in
  let V := to_uint32 (num_gates ntk) in
  let split_var := compute_split_var n V in
  let rounds := compute_round n split_var in
  let st := {| st_split_var := split_var; st_rounds := st_rounds st |} in
  let st := {| st_split_var := st_split_var st; st_rounds := rounds |} in
  (fst (round_loop (Z.to_nat rounds) ntk split_var rounds 0), st).

(** [simulation_cec]: [pst] is the content of the caller's statistics
    object ([None] for a null pointer); the result pairs the returned
    optional with that object after the call. *)
Definition simulation_cec (ntk1 ntk2 : Ntk) (pst : option simulation_cec_stats)
  : option bool * option simulation_cec_stats :=
  let st := default_stats in
  let result := false in
  if 40 <? num_pis ntk1 then (None, pst)
  else
    let ntk_miter := miter ntk1 ntk2 in
    let '(result, st) :=
      match ntk_miter with
      | Some m => run m st
      | None => (result, st)
      end in
    let pst := match pst with Some _ => Some st | None => None end in
    (Some result, pst).

End RoundController.

(** ** A network model *)

(** Modelled from the spec: the network data structure is an external
    collaborator.  A combinational network is given by its number of
    primary inputs and, per primary output, the signal that drives it; a
    signal is a constant, a primary input, a complemented signal or a gate
    (conjunction or exclusive or) over two signals. *)
Inductive signal : Type :=
| Const (value : bool)
| Pi (index : Z)
| Not (s : signal)
| And (a b : signal)
| Xor (a b : signal).

Record network : Type := {
  net_pis : Z;
  net_pos : list signal
}.

(** Number of gates below a signal. *)
Fixpoint signal_gates (s : signal) : Z :=
  match s with
  | Const _ | Pi _ => 0
  | Not a => signal_gates a
  | And a b | Xor a b => 1 + signal_gates a + signal_gates b
  end.

Definition network_gates (ntk : network) : Z :=
  fold_right (fun s acc => signal_gates s + acc) 0 (net_pos ntk).

(** Pairwise exclusive or of two output lists. *)
Fixpoint xor_outputs (pos1 pos2 : list signal) : list signal :=
  match pos1, pos2 with
  | o1 :: r1, o2 :: r2 => Xor o1 o2 :: xor_outputs r1 r2
  | _, _ => []
  end.

(** Modelled from the spec: the miter of two networks of equal arity has
    the pairwise exclusive or of their outputs as its outputs; there is no
    miter when the arities differ. *)
Definition network_miter (ntk1 ntk2 : network) : option network :=
  if (net_pis ntk1 =? net_pis ntk2)
     && (length (net_pos ntk1) =? length (net_pos ntk2))%nat
  then Some {| net_pis := net_pis ntk1;
               net_pos := xor_outputs (net_pos ntk1) (net_pos ntk2) |}
  else None.

Section NetworkModel.
Context {plat : Platform}.

(** Modelled from the spec: the evaluator combines the simulator's values
    for constants and primary inputs with the node rule of each gate, and
    complements through the simulator. *)
Fixpoint simulate_signal (sim : part_simulator) (s : signal)
  : dynamic_truth_table :=
  match s with
  | Const value => compute_constant sim value
  | Pi index => compute_pi sim index
  | Not a => compute_not sim (simulate_signal sim a)
  | And a b => tt_and (simulate_signal sim a) (simulate_signal sim b)
  | Xor a b => tt_xor (simulate_signal sim a) (simulate_signal sim b)
  end.

Definition network_simulate (ntk : network) (sim : part_simulator)
  : list dynamic_truth_table :=
  map (simulate_signal sim) (net_pos ntk).

#[export] Instance network_Network : Network network := {|
  num_pis := net_pis;
  num_gates := network_gates;
  simulate := network_simulate;
  miter := network_miter
|}.

End NetworkModel.

(** Example networks over two inputs: [a AND b] and [a OR b]. *)
Definition and2 : network :=
  {| net_pis := 2; net_pos := [And (Pi 0) (Pi 1)] |}.

Definition or2 : network :=
  {| net_pis := 2; net_pos := [Not (And (Not (Pi 0)) (Not (Pi 1)))] |}.

(** A buffer of one input, and a network of 41 inputs. *)
Definition buf1 : network := {| net_pis := 1; net_pos := [Pi 0] |}.

Definition wide41 : network := {| net_pis := 41; net_pos := [Pi 40] |}.


(** The fixed values a round index assigns to [d] inputs, read from bit 0
    upward. *)
Definition round_bits (d : nat) (i : Z) : list bool :=
  map (fun j => Z.testbit i (Z.of_nat j)) (seq 0 d).

(** The [len] consecutive round indices from [i] on. *)
Fixpoint round_range (i : Z) (len : nat) : list Z :=
  match len with
  | O => []
  | S len' => i :: round_range (i + 1) len'
  end.

(** Modelled from the spec: the Boolean function of a signal under an
    assignment [a] of the primary inputs. *)
Fixpoint eval_signal (a : Z -> bool) (s : signal) : bool :=
  match s with
  | Const value => value
  | Pi index => a index
  | Not x => negb (eval_signal a x)
  | And x y => eval_signal a x && eval_signal a y
  | Xor x y => xorb (eval_signal a x) (eval_signal a y)
  end.

(** Every primary input below a signal has an index in [0, n). *)
Fixpoint signal_inputs_below (n : Z) (s : signal) : bool :=
  match s with
  | Const _ => true
  | Pi index => (0 <=? index) && (index <? n)
  | Not x => signal_inputs_below n x
  | And x y | Xor x y => signal_inputs_below n x && signal_inputs_below n y
  end.

Definition network_wf (ntk : network) : bool :=
  (0 <=? net_pis ntk)
  && forallb (signal_inputs_below (net_pis ntk)) (net_pos ntk).

(** The value primary input [index] takes at bit [k] of the tables of round
    [i] with [sv] split variables, as [compute_pi] lays it out: a split
    input takes bit [index] of [k]; the others take the complement of bit
    [index - sv] of the round. *)
Definition round_input (sv i k index : Z) : bool :=
  if index <? sv then Z.testbit k index
  else negb (Z.testbit i (index - sv)).

(** * Properties *)

(** ** Machine integers *)

Lemma to_uint32_range (z : Z) : 0 <= to_uint32 z < 2 ^ 32.
Proof. unfold to_uint32. apply Z.mod_pos_bound. lia. Qed.

Lemma to_uint32_small (z : Z) : 0 <= z < 2 ^ 32 -> to_uint32 z = z.
Proof. intros H. unfold to_uint32. apply Z.mod_small. exact H. Qed.

Lemma to_uint32_int32 (z : Z) : to_uint32 (to_int32 z) = to_uint32 z.
Proof.
  unfold to_uint32, to_int32.
  rewrite Zminus_mod, Zmod_mod, <- Zminus_mod.
  f_equal. lia.
Qed.

Lemma pow2_le_inv (a b : Z) : 0 <= a -> 0 <= b -> 2 ^ a <= 2 ^ b -> a <= b.
Proof.
  intros Ha Hb H. destruct (Z_le_gt_dec a b) as [|Hgt]; [assumption|].
  assert (2 ^ b < 2 ^ a) by (apply Z.pow_lt_mono_r; lia). lia.
Qed.

Section MachineShiftFacts.
Context {plat : Platform}.

Lemma shl_int_defined (x k : Z) :
  k < 32 -> shl_int x k = to_int32 (Z.shiftl x k).
Proof.
  intros H. unfold shl_int.
  destruct (k <? 32) eqn:E; [reflexivity|]. apply Z.ltb_ge in E. lia.
Qed.

Lemma shl_int_one_uint32 (k : Z) :
  0 <= k < 32 -> to_uint32 (shl_int 1 k) = 2 ^ k.
Proof.
  intros H. rewrite shl_int_defined by lia.
  rewrite to_uint32_int32, Z.shiftl_1_l.
  apply to_uint32_small. split; [apply Z.pow_nonneg; lia|].
  apply Z.pow_lt_mono_r; lia.
Qed.

Lemma shl_int_one_small (k : Z) :
  0 <= k < 31 -> shl_int 1 k = 2 ^ k.
Proof.
  intros H. rewrite shl_int_defined by lia.
  rewrite Z.shiftl_1_l. unfold to_int32.
  assert (0 < 2 ^ k) by (apply Z.pow_pos_nonneg; lia).
  assert (2 ^ k < 2 ^ 31) by (apply Z.pow_lt_mono_r; lia).
  rewrite Z.mod_small; lia.
Qed.

Lemma shr_uint32_defined (x k : Z) :
  k < 32 -> shr_uint32 x k = Z.shiftr x k.
Proof.
  intros H. unfold shr_uint32.
  destruct (k <? 32) eqn:E; [reflexivity|]. apply Z.ltb_ge in E. lia.
Qed.

End MachineShiftFacts.

(** ** SplitPlanner *)

Section SplitPlannerFacts.
Context {plat : Platform}.

Lemma budget_okb_spec (m V : Z) : budget_okb m V = true <-> budget_ok m V.
Proof. unfold budget_okb, budget_ok. apply Z.leb_le. Qed.

Lemma budget_limit : to_uint32 (shl_int 1 29) = 2 ^ 29.
Proof. apply shl_int_one_uint32. lia. Qed.

(** With no gate the wrapped product is zero and every candidate passes. *)
Lemma within_budget_no_gate (m : Z) : within_budget m 0 = true.
Proof.
  unfold within_budget. rewrite budget_limit, Z.mul_0_r.
  reflexivity.
Qed.

(** Where the product does not leave 32 bits the loop test is the
    documented bound. *)
Lemma within_budget_exact (m V : Z) :
  3 <= m <= 33 -> 0 <= V -> (32 + 2 ^ (m - 3)) * V < 2 ^ 32 ->
  within_budget m V = budget_okb m V.
Proof.
  intros Hm HV Hp. unfold within_budget, budget_okb.
  rewrite budget_limit.
  assert (Hk : to_uint32 (m - 3) = m - 3) by (apply to_uint32_small; lia).
  rewrite Hk.
  assert (Hs : shl_int 1 (m - 3) = 2 ^ (m - 3))
    by (apply shl_int_one_small; lia).
  rewrite Hs.
  assert (0 < 2 ^ (m - 3)) by (apply Z.pow_pos_nonneg; lia).
  assert (2 ^ (m - 3) <= 2 ^ 30) by (apply Z.pow_le_mono_r; lia).
  rewrite (to_uint32_small (32 + 2 ^ (m - 3))) by lia.
  rewrite to_uint32_small by nia.
  reflexivity.
Qed.

(** The loop leaves [m] at the first candidate that exceeds [n] or fails
    the test, given fuel for the candidates in between. *)
Lemma split_loop_spec (fuel : nat) (n V m : Z) :
  0 <= m <= n + 1 -> n < 2 ^ 32 - 1 -> (Z.to_nat (n + 1 - m) <= fuel)%nat ->
  let r := split_loop fuel n V m in
  m <= r <= n + 1
  /\ (forall k, m <= k < r -> within_budget k V = true)
  /\ (r <= n -> within_budget r V = false).
Proof.
  revert m. induction fuel as [|fuel IH]; intros m Hm Hn Hf; cbn.
  - assert (m = n + 1) by lia. subst m.
    repeat split; try lia.
  - destruct (m <=? n) eqn:Ele; cbn.
    + apply Z.leb_le in Ele.
      destruct (within_budget m V) eqn:Eb.
      * rewrite to_uint32_small by lia.
        destruct (IH (m + 1)) as (Hr & Hpass & Hstop); try lia.
        repeat split; try lia; [|exact Hstop].
        intros k Hk. destruct (Z.eq_dec k m) as [->|Hne]; [exact Eb|].
        apply Hpass. lia.
      * repeat split; try lia. intros _. exact Eb.
    + apply Z.leb_gt in Ele. repeat split; try lia.
Qed.

(** More fuel than the candidates need changes nothing. *)
Lemma split_loop_fuel (f1 f2 : nat) (n V m : Z) :
  0 <= m <= n + 1 -> n < 2 ^ 32 - 1 ->
  (Z.to_nat (n + 1 - m) <= f1)%nat -> (Z.to_nat (n + 1 - m) <= f2)%nat ->
  split_loop f1 n V m = split_loop f2 n V m.
Proof.
  intros Hm Hn H1 H2.
  destruct (split_loop_spec f1 n V m Hm Hn H1) as (Ha & Hpa & Hsa).
  destruct (split_loop_spec f2 n V m Hm Hn H2) as (Hb & Hpb & Hsb).
  set (a := split_loop f1 n V m) in *. set (b := split_loop f2 n V m) in *.
  destruct (Z.lt_trichotomy a b) as [Hlt|[Heq|Hgt]]; [|exact Heq|].
  - rewrite Hpb in Hsa by lia. discriminate Hsa. lia.
  - rewrite Hpa in Hsb by lia. discriminate Hsb. lia.
Qed.

(** [compute_split_var] above six inputs, through the exit value of the
    loop. *)
Lemma compute_split_var_large (n V : Z) :
  6 < n < 2 ^ 32 - 1 ->
  let r := compute_split_var n V in
  6 <= r <= n
  /\ (forall k, 7 <= k <= r -> within_budget k V = true)
  /\ (r < n -> within_budget (r + 1) V = false).
Proof.
  intros Hn. unfold compute_split_var.
  destruct (n <=? 6) eqn:E; [apply Z.leb_le in E; lia|]. cbv zeta.
  destruct (split_loop_spec (Z.to_nat n) n V 7) as (Hr & Hpass & Hstop);
    try lia.
  set (m := split_loop (Z.to_nat n) n V 7) in *.
  rewrite to_uint32_small by lia.
  repeat split; try lia.
  - intros k Hk. apply Hpass. lia.
  - intros Hlt. replace (m - 1 + 1) with m by lia. apply Hstop. lia.
Qed.

(** The fuel [compute_split_var] gives the loop is enough: any larger
    amount yields the same result. *)
Lemma compute_split_var_fuel (fuel : nat) (n V : Z) :
  6 < n < 2 ^ 32 - 1 -> (Z.to_nat n <= fuel)%nat ->
  to_uint32 (split_loop fuel n V 7 - 1) = compute_split_var n V.
Proof.
  intros Hn Hf. unfold compute_split_var.
  destruct (Z.leb_spec n 6); [lia|]. cbv zeta.
  rewrite (split_loop_fuel fuel (Z.to_nat n)) by lia. reflexivity.
Qed.

(** The candidates the loop accepts satisfy the documented bound, and the
    test at the next candidate is the documented one, as long as
    [48 * V] fits 32 bits. *)
Lemma budget_chain (V : Z) :
  0 < V -> 48 * V < 2 ^ 32 ->
  forall d : nat,
    (forall k, 7 <= k < 7 + Z.of_nat d -> within_budget k V = true) ->
    (forall k, 7 <= k < 7 + Z.of_nat d -> budget_ok k V /\ k <= 32)
    /\ within_budget (7 + Z.of_nat d) V = budget_okb (7 + Z.of_nat d) V.
Proof.
  intros HV H48. induction d as [|d IH]; intros Hpass.
  - split; [intros k Hk; lia|].
    change (7 + Z.of_nat 0) with 7.
    apply within_budget_exact; lia.
  - destruct IH as (Hok & Hex).
    { intros k Hk. apply Hpass. lia. }
    assert (Hd : budget_ok (7 + Z.of_nat d) V).
    { apply budget_okb_spec. rewrite <- Hex. apply Hpass. lia. }
    assert (Hle : 7 + Z.of_nat d <= 32).
    { unfold budget_ok in Hd.
      assert (0 < 2 ^ (7 + Z.of_nat d - 3)) by (apply Z.pow_pos_nonneg; lia).
      assert (2 ^ (7 + Z.of_nat d - 3) <= 2 ^ 29) by nia.
      apply pow2_le_inv in H0; lia. }
    split.
    + intros k Hk. destruct (Z.eq_dec k (7 + Z.of_nat d)) as [->|Hne].
      * split; assumption.
      * apply Hok. lia.
    + apply within_budget_exact; try lia.
      unfold budget_ok in Hd.
      replace (7 + Z.of_nat (S d) - 3) with (Z.succ (7 + Z.of_nat d - 3))
        by lia.
      rewrite Z.pow_succ_r by lia.
      assert (0 < 2 ^ (7 + Z.of_nat d - 3)) by (apply Z.pow_pos_nonneg; lia).
      nia.
Qed.

End SplitPlannerFacts.

(** ** Bit vectors *)

Lemma testbit_one (k : Z) : Z.testbit 1 k = (k =? 0).
Proof.
  destruct (Z.eqb_spec k 0) as [->|Hne]; [reflexivity|].
  destruct (Z_lt_le_dec k 0) as [Hneg|Hpos].
  - apply Z.testbit_neg_r. exact Hneg.
  - apply Z.bits_above_log2; [lia|]. change (Z.log2 1) with 0. lia.
Qed.

Lemma bits_below (x w : Z) :
  0 <= x -> 0 <= w -> (forall k, w <= k -> Z.testbit x k = false) ->
  x < 2 ^ w.
Proof.
  intros Hx Hw Hhigh.
  destruct (Z.eq_dec x 0) as [->|Hne].
  - apply Z.pow_pos_nonneg; lia.
  - apply Z.log2_lt_pow2; [lia|].
    destruct (Z_lt_le_dec (Z.log2 x) w) as [|Hge]; [assumption|].
    pose proof (Hhigh (Z.log2 x) Hge) as Hf.
    rewrite Z.bit_log2 in Hf by lia. discriminate Hf.
Qed.

Lemma bits_above (x w k : Z) :
  0 <= x < 2 ^ w -> w <= k -> Z.testbit x k = false.
Proof.
  intros Hx Hk.
  destruct (Z_lt_le_dec w 0) as [Hneg|Hw].
  - rewrite Z.pow_neg_r in Hx by lia. lia.
  - rewrite <- (Z.mod_small x (2 ^ w)) by lia.
    apply Z.mod_pow2_bits_high. lia.
Qed.

Lemma tabulate_nonneg (f : Z -> bool) (w : nat) : 0 <= tabulate f w.
Proof.
  induction w as [|w IH]; cbn [tabulate]; [lia|].
  apply Z.lor_nonneg. split; [exact IH|].
  destruct (f (Z.of_nat w)); [|lia].
  rewrite Z.shiftl_1_l. apply Z.pow_nonneg. lia.
Qed.

Lemma tabulate_testbit (f : Z -> bool) (w : nat) (k : Z) :
  0 <= k -> Z.testbit (tabulate f w) k = (k <? Z.of_nat w) && f k.
Proof.
  intros Hk. induction w as [|w IH]; cbn [tabulate].
  - rewrite Z.bits_0. destruct (Z.ltb_spec k (Z.of_nat 0)); [lia|reflexivity].
  - rewrite Z.lor_spec, IH.
    assert (Hbit : Z.testbit
                     (if f (Z.of_nat w) then Z.shiftl 1 (Z.of_nat w) else 0) k
                   = (k =? Z.of_nat w) && f k).
    { destruct (Z.eqb_spec k (Z.of_nat w)) as [->|Hne]; cbn [andb].
      - destruct (f (Z.of_nat w)); [|apply Z.bits_0].
        rewrite Z.shiftl_spec, Z.sub_diag by lia. reflexivity.
      - destruct (f (Z.of_nat w)); [|apply Z.bits_0].
        rewrite Z.shiftl_spec, testbit_one by lia.
        apply Z.eqb_neq. lia. }
    rewrite Hbit.
    destruct (Z.ltb_spec k (Z.of_nat w)), (Z.eqb_spec k (Z.of_nat w)),
      (Z.ltb_spec k (Z.of_nat (S w))); try lia; cbn [andb orb];
      try reflexivity; try (destruct (f k); reflexivity).
Qed.

Lemma tabulate_range (f : Z -> bool) (w : nat) :
  0 <= tabulate f w < 2 ^ Z.of_nat w.
Proof.
  split; [apply tabulate_nonneg|].
  apply bits_below; [apply tabulate_nonneg|lia|].
  intros k Hk. rewrite tabulate_testbit by lia.
  destruct (Z.ltb_spec k (Z.of_nat w)); [lia|reflexivity].
Qed.

Lemma round_bits_length (d : nat) (i : Z) : length (round_bits d i) = d.
Proof. unfold round_bits. rewrite length_map, length_seq. reflexivity. Qed.

Lemma round_bits_nth (d : nat) (i : Z) (j : nat) :
  (j < d)%nat -> nth j (round_bits d i) false = Z.testbit i (Z.of_nat j).
Proof.
  intros Hj. unfold round_bits.
  rewrite (nth_indep _ false (Z.testbit i (Z.of_nat 0)))
    by (rewrite length_map, length_seq; exact Hj).
  rewrite (map_nth (fun j => Z.testbit i (Z.of_nat j))), seq_nth by exact Hj.
  reflexivity.
Qed.

(** Every assignment to [d] inputs is read off exactly one index below
    [2 ^ d]. *)
Lemma round_bits_onto (d : nat) (a : list bool) :
  length a = d ->
  exists i, 0 <= i < 2 ^ Z.of_nat d /\ round_bits d i = a.
Proof.
  intros Hlen.
  exists (tabulate (fun k => nth (Z.to_nat k) a false) d).
  split; [apply tabulate_range|].
  apply (nth_ext _ _ false false).
  - rewrite round_bits_length. symmetry. exact Hlen.
  - intros j Hj. rewrite round_bits_length in Hj.
    rewrite round_bits_nth by exact Hj.
    rewrite tabulate_testbit by lia.
    rewrite Nat2Z.id.
    destruct (Z.ltb_spec (Z.of_nat j) (Z.of_nat d)); [reflexivity|lia].
Qed.

Lemma round_bits_inj (d : nat) (i j : Z) :
  0 <= i < 2 ^ Z.of_nat d -> 0 <= j < 2 ^ Z.of_nat d ->
  round_bits d i = round_bits d j -> i = j.
Proof.
  intros Hi Hj Heq. apply Z.bits_inj'. intros k Hk.
  destruct (Z_lt_le_dec k (Z.of_nat d)) as [Hlt|Hge].
  - assert (Hn : (Z.to_nat k < d)%nat) by lia.
    pose proof (round_bits_nth d i _ Hn) as Ei.
    pose proof (round_bits_nth d j _ Hn) as Ej.
    rewrite Z2Nat.id in Ei, Ej by lia.
    rewrite <- Ei, <- Ej, Heq. reflexivity.
  - rewrite (bits_above i (Z.of_nat d)), (bits_above j (Z.of_nat d)) by lia.
    reflexivity.
Qed.

(** ** Claims about the SplitPlanner *)

Section SplitPlannerClaims.
Context {plat : Platform}.

(** C5 (amended).  Above six inputs, and for a gate count [V] with
    [48 * V] below 2^32 (so that the 32-bit product of the loop test does
    not wrap), [compute_split_var n V] lies between 6 and [n]; every
    candidate from 7 up to the result satisfies
    [(32 + 2^(m-3)) * V <= 2^29]; and when the result is below [n] the next
    candidate violates that bound.  The result is 6, whether or not 6
    satisfies the bound, when 7 already violates it. *)
Theorem compute_split_var_budget (n V : Z) :
  6 < n < 2 ^ 32 - 1 -> 0 <= V -> 48 * V < 2 ^ 32 ->
  let r := compute_split_var n V in
  6 <= r <= n
  /\ (forall m, 7 <= m <= r -> budget_ok m V)
  /\ (r < n -> ~ budget_ok (r + 1) V).
Proof.
  intros Hn HV H48 r.
  destruct (compute_split_var_large n V Hn) as (Hr & Hpass & Hstop).
  fold r in Hr, Hpass, Hstop.
  split; [exact Hr|].
  destruct (Z.eq_dec V 0) as [->|HV0].
  - split.
    + intros m _. unfold budget_ok. rewrite Z.mul_0_r. lia.
    + intros Hlt. specialize (Hstop Hlt).
      rewrite within_budget_no_gate in Hstop. discriminate Hstop.
  - destruct (budget_chain V ltac:(lia) H48 (Z.to_nat (r - 6)))
      as (Hok & Hex).
    { intros k Hk. apply Hpass. lia. }
    replace (7 + Z.of_nat (Z.to_nat (r - 6))) with (r + 1) in Hex by lia.
    split.
    + intros m Hm. apply Hok. lia.
    + intros Hlt Hbad. specialize (Hstop Hlt).
      apply budget_okb_spec in Hbad. congruence.
Qed.

(** C6 (what the code computes).  For [split_var <= n] with
    [n - split_var <= 31], [compute_round n split_var] is
    [2 ^ (n - split_var)], and the round indices below it, read bit by bit
    from bit 0 upward, give every assignment to the [n - split_var]
    non-split inputs exactly once.  For [n - split_var >= 32] the shift
    [1 << n - sp] leaves the 32 bits of its type: the result is a 32-bit
    value below [2 ^ (n - split_var)], so rounds are missing. *)
Theorem compute_round_cases (n sp : Z) :
  let rounds := compute_round n sp in
  let d := Z.to_nat (n - sp) in
  (0 <= sp <= n -> n - sp <= 31 ->
     rounds = 2 ^ (n - sp)
     /\ (forall a : list bool, length a = d ->
           exists i, 0 <= i < rounds /\ round_bits d i = a)
     /\ (forall i j, 0 <= i < rounds -> 0 <= j < rounds ->
           round_bits d i = round_bits d j -> i = j))
  /\ (32 <= n - sp -> 0 <= rounds < 2 ^ 32 /\ rounds < 2 ^ (n - sp)).
Proof.
  intros rounds d. split.
  - intros Hsp Hd.
    assert (Hr : rounds = 2 ^ (n - sp)).
    { unfold rounds, compute_round.
      rewrite (to_uint32_small (n - sp)) by lia.
      apply shl_int_one_uint32. lia. }
    assert (Hd' : Z.of_nat d = n - sp) by (unfold d; lia).
    split; [exact Hr|]. rewrite Hr, <- Hd'. split.
    + intros a Ha. apply round_bits_onto. exact Ha.
    + intros i j. apply round_bits_inj.
  - intros Hover.
    assert (Hr : 0 <= rounds < 2 ^ 32)
      by (unfold rounds, compute_round; apply to_uint32_range).
    split; [exact Hr|].
    assert (2 ^ 32 <= 2 ^ (n - sp)) by (apply Z.pow_le_mono_r; lia).
    lia.
Qed.

(** The round count is a 32-bit value on every platform. *)
Lemma compute_round_range (n sp : Z) : 0 <= compute_round n sp < 2 ^ 32.
Proof. unfold compute_round. apply to_uint32_range. Qed.

(** C7.  For a fixed gate count, [compute_split_var] is non-decreasing in
    the number of inputs; up to six inputs it returns its argument, and
    the round count is then 1. *)
Theorem compute_split_var_monotone (V n1 n2 : Z) :
  n1 <= n2 -> n2 < 2 ^ 32 - 1 ->
  compute_split_var n1 V <= compute_split_var n2 V
  /\ (forall n, n <= 6 ->
        compute_split_var n V = n /\ compute_round n n = 1).
Proof.
  intros Hle Hn2. split.
  - destruct (Z_le_gt_dec n2 6) as [H2|H2].
    + unfold compute_split_var.
      destruct (Z.leb_spec n1 6), (Z.leb_spec n2 6); lia.
    + destruct (compute_split_var_large n2 V ltac:(lia))
        as (Hr2 & Hpass2 & Hstop2).
      destruct (Z_le_gt_dec n1 6) as [H1|H1].
      * unfold compute_split_var at 1.
        destruct (Z.leb_spec n1 6); lia.
      * destruct (compute_split_var_large n1 V ltac:(lia))
          as (Hr1 & Hpass1 & Hstop1).
        set (r1 := compute_split_var n1 V) in *.
        set (r2 := compute_split_var n2 V) in *.
        destruct (Z_le_gt_dec r1 r2) as [|Hgt]; [assumption|].
        rewrite Hpass1 in Hstop2 by lia.
        discriminate Hstop2. lia.
  - intros n Hn. split.
    + unfold compute_split_var. destruct (Z.leb_spec n 6); [reflexivity|lia].
    + unfold compute_round. rewrite Z.sub_diag.
      change (to_uint32 0) with 0.
      apply (shl_int_one_uint32 0). lia.
Qed.

End SplitPlannerClaims.

Lemma compute_split_var_budget_witness :
  6 <= compute_split_var (plat := masked_count) 40 1000 <= 40
  /\ (forall m, 7 <= m <= compute_split_var (plat := masked_count) 40 1000 ->
        budget_ok m 1000)
  /\ (compute_split_var (plat := masked_count) 40 1000 < 40 ->
        ~ budget_ok (compute_split_var (plat := masked_count) 40 1000 + 1)
            1000).
Proof.
  apply (compute_split_var_budget (plat := masked_count) 40 1000); lia.
Defined.

(** C5 as stated fails: with 14 000 000 gates the first candidate, 7,
    violates the bound and 6 is returned although 6 violates it too; with
    89 478 486 gates the product [48 * V] wraps to 32 and 7 is returned
    although it violates the bound. *)
Lemma compute_split_var_budget_counterexample :
  compute_split_var (plat := masked_count) 7 14000000 = 6
  /\ budget_okb 7 14000000 = false
  /\ budget_okb 6 14000000 = false
  /\ compute_split_var (plat := masked_count) 7 89478486 = 7
  /\ budget_okb 7 89478486 = false.
Proof. repeat split; vm_compute; reflexivity. Qed.

(** C6 at 40 inputs and 6 split variables: [2 ^ 34] rounds are due; with
    the shift count masked to five bits the result is [1 << 2 = 4]. *)
Lemma compute_round_cases_witness :
  (6 <=? 40) = true
  /\ compute_round (plat := masked_count) 40 6 = 4
  /\ (0 <= compute_round (plat := masked_count) 40 6 < 2 ^ 32
      /\ compute_round (plat := masked_count) 40 6 < 2 ^ (40 - 6)).
Proof.
  split; [reflexivity|]. split; [reflexivity|].
  apply (proj2 (compute_round_cases (plat := masked_count) 40 6)). lia.
Defined.

Lemma compute_split_var_monotone_witness :
  compute_split_var (plat := masked_count) 5 1000
    <= compute_split_var (plat := masked_count) 30 1000
  /\ (forall n, n <= 6 ->
        compute_split_var (plat := masked_count) n 1000 = n
        /\ compute_round (plat := masked_count) n n = 1).
Proof.
  apply (compute_split_var_monotone (plat := masked_count) 1000 5 30); lia.
Defined.

(** ** Truth tables *)

Lemma tt_width_nonneg (nv : Z) : 0 <= tt_width nv.
Proof. unfold tt_width. apply Z.pow_nonneg. lia. Qed.

Lemma tt_create_fits (nv : Z) : tt_fits (tt_create nv).
Proof.
  unfold tt_fits. cbn. split; [lia|].
  apply Z.pow_pos_nonneg; [lia|apply tt_width_nonneg].
Qed.

Lemma tt_not_fits (t : dynamic_truth_table) : tt_fits (tt_not t).
Proof.
  unfold tt_fits. cbn.
  rewrite Z.land_ones by apply tt_width_nonneg.
  apply Z.mod_pos_bound.
  apply Z.pow_pos_nonneg; [lia|apply tt_width_nonneg].
Qed.

Lemma create_nth_var_fits (t : dynamic_truth_table) (index : Z) :
  tt_fits (create_nth_var t index).
Proof.
  unfold tt_fits. cbn.
  pose proof (tt_width_nonneg (num_vars t)) as Hw.
  pose proof (tabulate_range (fun k => Z.testbit k index)
                (Z.to_nat (tt_width (num_vars t)))) as Hr.
  rewrite Z2Nat.id in Hr by exact Hw. exact Hr.
Qed.

Lemma tt_and_fits (a b : dynamic_truth_table) :
  tt_fits a -> tt_fits (tt_and a b).
Proof.
  unfold tt_fits. cbn. intros Ha.
  pose proof (tt_width_nonneg (num_vars a)) as Hw.
  assert (Hn : 0 <= Z.land (bits a) (bits b)) by (apply Z.land_nonneg; lia).
  split; [exact Hn|].
  apply bits_below; [exact Hn|exact Hw|].
  intros k Hk. rewrite Z.land_spec, (bits_above (bits a) _ k Ha Hk).
  reflexivity.
Qed.

Lemma tt_xor_fits (a b : dynamic_truth_table) :
  tt_fits a -> tt_fits b -> num_vars b = num_vars a -> tt_fits (tt_xor a b).
Proof.
  unfold tt_fits. cbn. intros Ha Hb Hv. rewrite Hv in Hb.
  pose proof (tt_width_nonneg (num_vars a)) as Hw.
  assert (Hn : 0 <= Z.lxor (bits a) (bits b)) by (apply Z.lxor_nonneg; lia).
  split; [exact Hn|].
  apply bits_below; [exact Hn|exact Hw|].
  intros k Hk.
  rewrite Z.lxor_spec, (bits_above (bits a) _ k Ha Hk),
    (bits_above (bits b) _ k Hb Hk).
  reflexivity.
Qed.

(** The projection table holds, at assignment [k], bit [index] of [k]. *)
Lemma create_nth_var_testbit (nv index k : Z) :
  0 <= k < 2 ^ nv ->
  Z.testbit (bits (create_nth_var (tt_create nv) index)) k
  = Z.testbit k index.
Proof.
  intros Hk. cbn. rewrite tabulate_testbit by lia.
  unfold tt_width. rewrite Z2Nat.id by lia.
  destruct (Z.ltb_spec k (2 ^ nv)); [reflexivity|lia].
Qed.

(** ** Claims about the PartialSimulator *)

Section PartialSimulatorClaims.
Context {plat : Platform}.

Lemma low_bit_shr (x k : Z) :
  0 <= k -> negb (Z.land (Z.shiftr x k) 1 =? 0) = Z.testbit x k.
Proof.
  intros Hk. change 1 with (Z.ones 1) at 1.
  rewrite Z.land_ones by lia. change (2 ^ 1) with 2.
  rewrite <- Z.bit0_mod, Z.shiftr_spec by lia. cbn [Z.add].
  destruct (Z.testbit x k); reflexivity.
Qed.

(** C2 (what the code computes).  Below [split_var], [compute_pi] is the
    projection table of the variable: at assignment [k] it holds bit
    [index] of [k].  From [split_var] on (and less than 32 positions
    above it) it is [compute_constant] at the complement of bit
    [index - split_var] of the round: the all-1 table when that bit is 0,
    the all-0 table when it is 1. *)
Theorem compute_pi_cases (s : part_simulator) (index : Z) :
  (index < split_var s ->
     compute_pi s index = create_nth_var (tt_create (split_var s)) index
     /\ (forall k, 0 <= k < 2 ^ split_var s ->
           Z.testbit (bits (compute_pi s index)) k = Z.testbit k index))
  /\ (split_var s <= index < split_var s + 32 ->
     compute_pi s index
     = compute_constant s (negb (Z.testbit (round s) (index - split_var s)))).
Proof.
  unfold compute_pi. cbv zeta. split.
  - intros Hlt. destruct (Z.ltb_spec index (split_var s)); [|lia].
    split; [reflexivity|].
    intros k Hk. apply create_nth_var_testbit. exact Hk.
  - intros Hge. destruct (Z.ltb_spec index (split_var s)); [lia|].
    rewrite to_uint32_small by lia.
    rewrite shr_uint32_defined, low_bit_shr by lia.
    unfold compute_constant.
    destruct (Z.testbit (round s) (index - split_var s)); reflexivity.
Qed.

Lemma compute_constant_width (s : part_simulator) (value : bool) :
  num_vars (compute_constant s value) = split_var s
  /\ tt_fits (compute_constant s value).
Proof.
  unfold compute_constant. cbv zeta. destruct value.
  - split; [reflexivity|apply tt_not_fits].
  - split; [reflexivity|apply tt_create_fits].
Qed.

Lemma compute_pi_width (s : part_simulator) (index : Z) :
  num_vars (compute_pi s index) = split_var s
  /\ tt_fits (compute_pi s index).
Proof.
  unfold compute_pi. cbv zeta.
  destruct (index <? split_var s).
  - split; [reflexivity|apply create_nth_var_fits].
  - match goal with |- context [if ?b then _ else _] => destruct b end.
    + split; [reflexivity|apply tt_not_fits].
    + split; [reflexivity|apply tt_create_fits].
Qed.

Lemma simulate_signal_width (s : part_simulator) (sig : signal) :
  num_vars (simulate_signal s sig) = split_var s
  /\ tt_fits (simulate_signal s sig).
Proof.
  induction sig as [value|index|a IHa|a IHa b IHb|a IHa b IHb];
    cbn [simulate_signal].
  - apply compute_constant_width.
  - apply compute_pi_width.
  - destruct IHa as (Hv & Hf). unfold compute_not.
    split; [exact Hv|apply tt_not_fits].
  - destruct IHa as (Hva & Hfa).
    split; [exact Hva|apply tt_and_fits; exact Hfa].
  - destruct IHa as (Hva & Hfa), IHb as (Hvb & Hfb).
    split; [exact Hva|apply tt_xor_fits; congruence].
Qed.

(** C10.  Every table of a simulator with [split_var] variables has
    [split_var] variables and fits [2 ^ split_var] bits: the tables of
    [compute_constant] and [compute_pi] do, [compute_not] keeps the
    variable count of its argument and fits its width, and so every table
    of one round's evaluation has that one width. *)
Theorem part_simulator_width (s : part_simulator) :
  (forall value,
      num_vars (compute_constant s value) = split_var s
      /\ tt_fits (compute_constant s value))
  /\ (forall index,
      num_vars (compute_pi s index) = split_var s
      /\ tt_fits (compute_pi s index))
  /\ (forall t,
      num_vars (compute_not s t) = num_vars t /\ tt_fits (compute_not s t))
  /\ (forall ntk out,
      In out (network_simulate ntk s) ->
      num_vars out = split_var s /\ tt_fits out).
Proof.
  split; [apply compute_constant_width|].
  split; [apply compute_pi_width|].
  split.
  - intros t. unfold compute_not. split; [reflexivity|apply tt_not_fits].
  - intros ntk out Hin. unfold network_simulate in Hin.
    apply in_map_iff in Hin. destruct Hin as (sig & <- & _).
    apply simulate_signal_width.
Qed.

End PartialSimulatorClaims.

(** C2 at split_var = 2, round = 0, index = 2: bit 0 of the round is 0,
    and the table returned is the all-1 table, the one
    [compute_constant] returns for [true]. *)
Lemma compute_pi_cases_witness :
  Z.testbit 0 (2 - 2) = false
  /\ compute_pi (plat := masked_count) {| split_var := 2; round := 0 |} 2
     = compute_constant {| split_var := 2; round := 0 |}
         (negb (Z.testbit 0 (2 - 2)))
  /\ compute_pi (plat := masked_count) {| split_var := 2; round := 0 |} 2
     = {| num_vars := 2; bits := 15 |}
  /\ compute_constant {| split_var := 2; round := 0 |} false
     = {| num_vars := 2; bits := 0 |}.
Proof.
  split; [reflexivity|]. split.
  - apply (proj2 (compute_pi_cases (plat := masked_count)
                    {| split_var := 2; round := 0 |} 2)).
    cbn. lia.
  - split; reflexivity.
Defined.

(** ** RoundController *)

Section RoundControllerFacts.
Context {plat : Platform} {Ntk : Type} {net : Network Ntk}.

Lemma outputs_const0_true (tts : list dynamic_truth_table) :
  outputs_const0 tts = true
  <-> (forall out, In out tts -> is_const0 out = true).
Proof.
  induction tts as [|t rest IH]; cbn [outputs_const0 In].
  - split; [intros _ out []|reflexivity].
  - destruct (is_const0 t) eqn:Et; cbn [Bool.eqb].
    + rewrite IH. split.
      * intros H out [<-|Hin]; [exact Et|apply H; exact Hin].
      * intros H out Hin. apply H. right. exact Hin.
    + split; [discriminate|].
      intros H. rewrite <- Et. apply H. left. reflexivity.
Qed.

Lemma outputs_const0_false (tts : list dynamic_truth_table) :
  outputs_const0 tts = false
  <-> (exists out, In out tts /\ is_const0 out = false).
Proof.
  induction tts as [|t rest IH]; cbn [outputs_const0 In].
  - split; [discriminate|intros (out & [] & _)].
  - destruct (is_const0 t) eqn:Et; cbn [Bool.eqb].
    + rewrite IH. split.
      * intros (out & Hin & Hz). exists out. split; [right|]; assumption.
      * intros (out & [<-|Hin] & Hz); [congruence|].
        exists out. split; assumption.
    + split; [|reflexivity].
      intros _. exists t. split; [left; reflexivity|exact Et].
Qed.

(** The loop entered at [i] either runs every round up to [rounds] and
    finds them clear, or stops in the first round that is not. *)
Lemma round_loop_spec (ntk : Ntk) (sv rounds : Z) (fuel : nat) (i : Z) :
  0 <= i <= rounds -> rounds < 2 ^ 32 -> fuel = Z.to_nat (rounds - i) ->
  (round_loop fuel ntk sv rounds i = (true, round_range i fuel)
   /\ forall j, i <= j < rounds -> round_clear ntk sv j = true)
  \/ (exists k, i <= k < rounds
        /\ round_loop fuel ntk sv rounds i
           = (false, round_range i (Z.to_nat (k + 1 - i)))
        /\ round_clear ntk sv k = false
        /\ forall j, i <= j < k -> round_clear ntk sv j = true).
Proof.
  revert i. induction fuel as [|fuel IH]; intros i Hi Hr Hf.
  - left. split; [reflexivity|]. intros j Hj. lia.
  - cbn [round_loop]. destruct (Z.ltb_spec i rounds) as [Hlt|]; [|lia].
    fold (round_clear ntk sv i). destruct (round_clear ntk sv i) eqn:Ec.
    + rewrite to_uint32_small by lia.
      destruct (IH (i + 1)) as [(Hloop & Hall)|(k & Hk & Hloop & Hbad & Hall)];
        try lia.
      * left. rewrite Hloop. split; [reflexivity|].
        intros j Hj. destruct (Z.eq_dec j i) as [->|]; [exact Ec|].
        apply Hall. lia.
      * right. exists k. rewrite Hloop. split; [lia|].
        split; [|split; [exact Hbad|]].
        -- replace (Z.to_nat (k + 1 - i))
             with (S (Z.to_nat (k + 1 - (i + 1)))) by lia.
           reflexivity.
        -- intros j Hj. destruct (Z.eq_dec j i) as [->|]; [exact Ec|].
           apply Hall. lia.
    + right. exists i. split; [lia|].
      replace (i + 1 - i) with 1 by lia.
      split; [reflexivity|]. split; [exact Ec|]. intros j Hj. lia.
Qed.

(** When every round is clear the loop answers [true], whatever the
    fuel. *)
Lemma round_loop_all_clear (ntk : Ntk) (sv rounds : Z) (fuel : nat) (i : Z) :
  (forall j, round_clear ntk sv j = true) ->
  fst (round_loop fuel ntk sv rounds i) = true.
Proof.
  intros Hall. revert i. induction fuel as [|fuel IH]; intros i;
    cbn [round_loop]; [reflexivity|].
  destruct (i <? rounds); [|reflexivity].
  fold (round_clear ntk sv i). rewrite Hall.
  specialize (IH (to_uint32 (i + 1))).
  destruct (round_loop fuel ntk sv rounds (to_uint32 (i + 1))) as [res tr].
  exact IH.
Qed.

(** C3.  With [rounds] the computed round count: [run] returns [false]
    exactly when some round below [rounds] yields an output table that is
    not zero, and [true] exactly when every output table of every such
    round is zero; on [false] the rounds simulated are those up to and
    including the first round with a non-zero table, and no later one. *)
Theorem run_verdict (ntk : Ntk) (st : simulation_cec_stats) :
  let n := to_uint32 (num_pis ntk) in
  let V := to_uint32 (num_gates ntk) in
  let sv := compute_split_var n V in
  let rounds := compute_round n sv in
  let tables i := simulate ntk {| split_var := sv; round := i |} in
  (fst (run ntk st) = false
   <-> exists i, 0 <= i < rounds
         /\ exists out, In out (tables i) /\ is_const0 out = false)
  /\ (fst (run ntk st) = true
      <-> forall i, 0 <= i < rounds ->
            forall out, In out (tables i) -> is_const0 out = true)
  /\ (fst (run ntk st) = false ->
      exists k, 0 <= k < rounds
        /\ (exists out, In out (tables k) /\ is_const0 out = false)
        /\ (forall j, 0 <= j < k ->
              forall out, In out (tables j) -> is_const0 out = true)
        /\ rounds_executed ntk = round_range 0 (Z.to_nat (k + 1)))
  /\ (fst (run ntk st) = true ->
      rounds_executed ntk = round_range 0 (Z.to_nat rounds)).
Proof.
  intros n V sv rounds tables.
  pose proof (compute_round_range n sv) as Hrange. fold rounds in Hrange.
  unfold run, rounds_executed. cbv zeta.
  fold n V sv rounds. cbn [fst].
  destruct (round_loop_spec ntk sv rounds (Z.to_nat rounds) 0)
    as [(Hloop & Hall)|(k & Hk & Hloop & Hbad & Hall)]; try lia.
  - rewrite Hloop. cbn [fst snd].
    assert (Hclear : forall i, 0 <= i < rounds ->
              forall out, In out (tables i) -> is_const0 out = true).
    { intros i Hi. apply outputs_const0_true. apply Hall. exact Hi. }
    split; [|split; [|split]].
    + split; [discriminate|].
      intros (i & Hi & out & Hin & Hz).
      rewrite (Hclear i Hi out Hin) in Hz. discriminate Hz.
    + split; [intros _; exact Hclear|reflexivity].
    + discriminate.
    + reflexivity.
  - rewrite Hloop. cbn [fst snd]. rewrite Z.sub_0_r.
    apply outputs_const0_false in Hbad.
    split; [|split; [|split]].
    + split; [|reflexivity]. intros _. exists k. split; assumption.
    + split; [discriminate|].
      intros Hclear. destruct Hbad as (out & Hin & Hz).
      rewrite (Hclear k Hk out Hin) in Hz. discriminate Hz.
    + intros _. exists k. split; [exact Hk|]. split; [exact Hbad|].
      split; [|reflexivity].
      intros j Hj. apply outputs_const0_true. apply Hall. exact Hj.
    + discriminate.
Qed.

(** C8.  Whatever the verdict, the statistics [run] leaves hold the
    computed [split_var] and [rounds]; and when there is a miter,
    [simulation_cec] returns the verdict of [run] on it and hands those
    statistics to the caller's object. *)
Theorem run_records_stats :
  (forall (ntk : Ntk) (st : simulation_cec_stats),
      let n := to_uint32 (num_pis ntk) in
      let V := to_uint32 (num_gates ntk) in
      snd (run ntk st)
      = {| st_split_var := compute_split_var n V;
           st_rounds := compute_round n (compute_split_var n V) |})
  /\ (forall (ntk1 ntk2 m : Ntk) (st0 : simulation_cec_stats),
      num_pis ntk1 <= 40 -> miter ntk1 ntk2 = Some m ->
      simulation_cec ntk1 ntk2 (Some st0)
      = (Some (fst (run m default_stats)),
         Some (snd (run m default_stats)))).
Proof.
  split.
  - intros ntk st. reflexivity.
  - intros ntk1 ntk2 m st0 Hpis Hm. unfold simulation_cec. cbv zeta.
    destruct (Z.ltb_spec 40 (num_pis ntk1)); [lia|].
    rewrite Hm. destruct (run m default_stats) as [res st]. reflexivity.
Qed.

(** C1 (amended).  When the first network has at most 40 primary inputs
    and there is no miter, [simulation_cec] returns the present value
    [false], and the caller's statistics object, when there is one, is
    set to the default statistics. *)
Theorem simulation_cec_no_miter
  (ntk1 ntk2 : Ntk) (pst : option simulation_cec_stats) :
  num_pis ntk1 <= 40 -> miter ntk1 ntk2 = None ->
  simulation_cec ntk1 ntk2 pst
  = (Some false, option_map (fun _ => default_stats) pst).
Proof.
  intros Hpis Hm. unfold simulation_cec. cbv zeta.
  destruct (Z.ltb_spec 40 (num_pis ntk1)); [lia|].
  rewrite Hm. destruct pst; reflexivity.
Qed.

(** C4.  When the first network has more than 40 primary inputs,
    [simulation_cec] returns the absent optional whatever the second
    network is, and the caller's statistics object is as it was. *)
Theorem simulation_cec_bound
  (ntk1 ntk2 : Ntk) (pst : option simulation_cec_stats) :
  40 < num_pis ntk1 -> simulation_cec ntk1 ntk2 pst = (None, pst).
Proof.
  intros Hpis. unfold simulation_cec. cbv zeta.
  destruct (Z.ltb_spec 40 (num_pis ntk1)); [reflexivity|lia].
Qed.

End RoundControllerFacts.

(** ** The network model *)

Section NetworkModelClaims.
Context {plat : Platform}.

(** The tables of a self-miter are zero under every simulator. *)
Lemma self_miter_clear (sim : part_simulator) (pos : list signal) :
  outputs_const0
    (map (simulate_signal sim) (xor_outputs pos pos)) = true.
Proof.
  apply outputs_const0_true. intros out Hin.
  apply in_map_iff in Hin. destruct Hin as (sig & <- & Hin).
  induction pos as [|o rest IH]; cbn [xor_outputs In] in Hin; [contradiction|].
  destruct Hin as [<-|Hin]; [|apply IH; exact Hin].
  cbn [simulate_signal]. unfold is_const0, tt_xor. cbn [bits].
  rewrite Z.lxor_nilpotent. reflexivity.
Qed.

(** C9.  A network of at most 40 primary inputs whose miter with itself
    exists is reported equivalent to itself: [simulation_cec] returns the
    present value [true]. *)
Theorem simulation_cec_reflexive
  (ntk m : network) (pst : option simulation_cec_stats) :
  num_pis ntk <= 40 -> miter ntk ntk = Some m ->
  fst (simulation_cec ntk ntk pst) = Some true.
Proof.
  intros Hpis Hm. unfold simulation_cec. cbv zeta.
  destruct (Z.ltb_spec 40 (num_pis ntk)); [lia|].
  rewrite Hm. unfold run. cbv zeta.
  rewrite round_loop_all_clear.
  - destruct pst; reflexivity.
  - intros j. unfold round_clear.
    cbn [miter network_Network] in Hm. unfold network_miter in Hm.
    destruct (_ && _) in Hm; [|discriminate Hm].
    injection Hm as <-.
    cbn [simulate network_Network]. unfold network_simulate. cbn [net_pos].
    apply self_miter_clear.
Qed.

End NetworkModelClaims.

(** ** The claims on concrete networks *)

Section Scenarios.
#[local] Existing Instance masked_count.

(** Scenario A: two conjunctions of two inputs are equivalent, with two
    split variables and one round. *)
Example scenario_and_and :
  simulation_cec and2 and2 (Some default_stats)
  = (Some true, Some {| st_split_var := 2; st_rounds := 1 |}).
Proof. vm_compute. reflexivity. Qed.

(** Scenario B: a conjunction and a disjunction are not equivalent. *)
Example scenario_and_or :
  simulation_cec and2 or2 (Some default_stats)
  = (Some false, Some {| st_split_var := 2; st_rounds := 1 |}).
Proof. vm_compute. reflexivity. Qed.

Lemma simulation_cec_no_miter_witness :
  simulation_cec buf1 and2 (Some {| st_split_var := 5; st_rounds := 9 |})
  = (Some false,
     option_map (fun _ => default_stats)
       (Some {| st_split_var := 5; st_rounds := 9 |})).
Proof.
  apply simulation_cec_no_miter; [apply Z.leb_le; reflexivity|reflexivity].
Defined.

(** C1 as stated fails: a network of one input against a network of two
    inputs has no miter, and the result is the present value [false]. *)
Lemma simulation_cec_no_miter_counterexample :
  (num_pis buf1 <=? 40) = true
  /\ miter buf1 and2 = None
  /\ fst (simulation_cec buf1 and2 None) = Some false.
Proof. repeat split; vm_compute; reflexivity. Qed.

Lemma simulation_cec_bound_witness :
  simulation_cec wide41 and2 (Some {| st_split_var := 5; st_rounds := 9 |})
  = (None, Some {| st_split_var := 5; st_rounds := 9 |}).
Proof. apply simulation_cec_bound. apply Z.ltb_lt. reflexivity. Defined.

Lemma run_records_stats_witness :
  snd (run and2 default_stats) = {| st_split_var := 2; st_rounds := 1 |}
  /\ fst (run {| net_pis := 2;
                 net_pos := xor_outputs (net_pos and2) (net_pos or2) |}
              default_stats) = false
  /\ simulation_cec and2 or2 (Some {| st_split_var := 5; st_rounds := 9 |})
     = (Some false, Some {| st_split_var := 2; st_rounds := 1 |}).
Proof.
  split; [exact (proj1 run_records_stats and2 default_stats)|].
  split; [vm_compute; reflexivity|].
  exact (proj2 run_records_stats and2 or2
           {| net_pis := 2;
              net_pos := xor_outputs (net_pos and2) (net_pos or2) |}
           {| st_split_var := 5; st_rounds := 9 |}
           ltac:(apply Z.leb_le; reflexivity) eq_refl).
Defined.

Lemma simulation_cec_reflexive_witness :
  fst (simulation_cec and2 and2 None) = Some true.
Proof.
  apply (simulation_cec_reflexive and2
           {| net_pis := 2;
              net_pos := xor_outputs (net_pos and2) (net_pos and2) |});
    [apply Z.leb_le; reflexivity|reflexivity].
Defined.

End Scenarios.

(** * Further properties *)

(** ** SplitPlanner *)

Section SplitPlannerMore.
Context {plat : Platform}.

(** A candidate that meets the documented bound for a network with a gate
    is at most 31. *)
Lemma budget_ok_cap (k V : Z) : 3 <= k -> 0 < V -> budget_ok k V -> k <= 31.
Proof.
  unfold budget_ok. intros Hk HV Hb.
  destruct (Z_le_gt_dec k 31) as [|Hgt]; [assumption|].
  assert (2 ^ 29 <= 2 ^ (k - 3)) by (apply Z.pow_le_mono_r; lia).
  nia.
Qed.

(** The documented bound gets harder to meet as the gate count grows. *)
Lemma budget_ok_fewer_gates (k V1 V2 : Z) :
  0 <= V1 <= V2 -> budget_ok k V2 -> budget_ok k V1.
Proof.
  unfold budget_ok. intros HV Hb.
  assert (0 <= 2 ^ (k - 3)) by (apply Z.pow_nonneg; lia).
  nia.
Qed.

(** Above six inputs and without wrap-around, the result in terms of the
    documented bound. *)
Lemma split_var_exact (n V : Z) :
  6 < n < 2 ^ 32 - 1 -> 0 <= V -> 48 * V < 2 ^ 32 ->
  (forall m, 7 <= m <= compute_split_var n V -> budget_ok m V)
  /\ (compute_split_var n V < n ->
      ~ budget_ok (compute_split_var n V + 1) V).
Proof.
  intros Hn HV H48.
  destruct (compute_split_var_large n V Hn) as (Hr & Hpass & Hstop).
  set (r := compute_split_var n V) in *.
  destruct (Z.eq_dec V 0) as [->|HV0].
  - split.
    + intros m _. unfold budget_ok. rewrite Z.mul_0_r. lia.
    + intros Hlt. specialize (Hstop Hlt).
      rewrite within_budget_no_gate in Hstop. discriminate Hstop.
  - destruct (budget_chain V ltac:(lia) H48 (Z.to_nat (r - 6)))
      as (Hok & Hex).
    { intros k Hk. apply Hpass. lia. }
    replace (7 + Z.of_nat (Z.to_nat (r - 6))) with (r + 1) in Hex by lia.
    split.
    + intros m Hm. apply Hok. lia.
    + intros Hlt Hbad. specialize (Hstop Hlt).
      apply budget_okb_spec in Hbad. congruence.
Qed.

(** X1.  Whatever the gate count, [compute_split_var n V] never exceeds
    [n] and is at least [n] below seven inputs and at least 6 above, so
    the difference [n - split_var] that [compute_round] shifts by is
    between 0 and [n - 6] and does not wrap. *)
Theorem compute_split_var_bounds (n V : Z) :
  0 <= n < 2 ^ 32 - 1 ->
  Z.min n 6 <= compute_split_var n V <= n
  /\ to_uint32 (n - compute_split_var n V) = n - compute_split_var n V.
Proof.
  intros Hn.
  assert (H : Z.min n 6 <= compute_split_var n V <= n).
  { destruct (Z_le_gt_dec n 6) as [Hs|Hl].
    - unfold compute_split_var. destruct (Z.leb_spec n 6); lia.
    - destruct (compute_split_var_large n V ltac:(lia)) as (Hr & _). lia. }
  split; [exact H|]. apply to_uint32_small. lia.
Qed.

(** X2.  A network without gates is simulated with all of its inputs as
    split variables, in one round. *)
Theorem compute_split_var_no_gates (n : Z) :
  0 <= n < 2 ^ 32 - 1 ->
  compute_split_var n 0 = n
  /\ compute_round n (compute_split_var n 0) = 1.
Proof.
  intros Hn.
  assert (H : compute_split_var n 0 = n).
  { destruct (Z_le_gt_dec n 6) as [Hs|Hl].
    - unfold compute_split_var. destruct (Z.leb_spec n 6); lia.
    - destruct (compute_split_var_large n 0 ltac:(lia)) as (Hr & _ & Hstop).
      destruct (Z_lt_le_dec (compute_split_var n 0) n) as [Hlt|]; [|lia].
      specialize (Hstop Hlt). rewrite within_budget_no_gate in Hstop.
      discriminate Hstop. }
  split; [exact H|]. rewrite H. unfold compute_round.
  rewrite Z.sub_diag. change (to_uint32 0) with 0.
  apply (shl_int_one_uint32 0). lia.
Qed.

(** X3.  For a network with at least one gate (and [48 * V] below 2^32)
    the number of split variables is at most 31, however many inputs
    there are. *)
Theorem compute_split_var_cap (n V : Z) :
  n < 2 ^ 32 - 1 -> 0 < V -> 48 * V < 2 ^ 32 ->
  compute_split_var n V <= 31.
Proof.
  intros Hn HV H48.
  destruct (Z_le_gt_dec n 6) as [Hs|Hl].
  - unfold compute_split_var. destruct (Z.leb_spec n 6); lia.
  - destruct (compute_split_var_large n V ltac:(lia)) as (Hr & _).
    destruct (split_var_exact n V ltac:(lia) ltac:(lia) H48) as (Hok & _).
    destruct (Z_le_gt_dec (compute_split_var n V) 6) as [|Hgt]; [lia|].
    apply (budget_ok_cap _ V); [lia|exact HV|]. apply Hok. lia.
Qed.

(** X4.  For a fixed number of inputs, more gates never give more split
    variables (gate counts with [48 * V] below 2^32). *)
Theorem compute_split_var_antitone (n V1 V2 : Z) :
  n < 2 ^ 32 - 1 -> 0 <= V1 <= V2 -> 48 * V2 < 2 ^ 32 ->
  compute_split_var n V2 <= compute_split_var n V1.
Proof.
  intros Hn HV H48.
  destruct (Z_le_gt_dec n 6) as [Hs|Hl].
  - unfold compute_split_var. destruct (Z.leb_spec n 6); lia.
  - destruct (compute_split_var_large n V1 ltac:(lia)) as (Hr1 & _).
    destruct (compute_split_var_large n V2 ltac:(lia)) as (Hr2 & _).
    destruct (split_var_exact n V1 ltac:(lia) ltac:(lia) ltac:(lia))
      as (_ & Hstop1).
    destruct (split_var_exact n V2 ltac:(lia) ltac:(lia) H48) as (Hok2 & _).
    set (r1 := compute_split_var n V1) in *.
    set (r2 := compute_split_var n V2) in *.
    destruct (Z_le_gt_dec r2 r1) as [|Hgt]; [assumption|].
    exfalso. apply Hstop1; [lia|].
    apply (budget_ok_fewer_gates _ V1 V2 HV). apply Hok2. lia.
Qed.

(** X5.  Up to 37 inputs, whatever the gate count, the rounds times the
    table width are exactly the [2 ^ n] input assignments; in particular
    there is at least one round. *)
Theorem rounds_cover_inputs (n V : Z) :
  0 <= n <= 37 ->
  let sv := compute_split_var n V in
  let rounds := compute_round n sv in
  rounds * 2 ^ sv = 2 ^ n /\ 1 <= rounds.
Proof.
  intros Hn sv rounds.
  assert (Hsv : Z.min n 6 <= sv <= n).
  { destruct (Z_le_gt_dec n 6) as [Hs|Hl].
    - unfold sv, compute_split_var. destruct (Z.leb_spec n 6); lia.
    - destruct (compute_split_var_large n V ltac:(lia)) as (Hr & _).
      fold sv in Hr. lia. }
  assert (Hr : rounds = 2 ^ (n - sv)).
  { unfold rounds, compute_round.
    rewrite (to_uint32_small (n - sv)) by lia.
    apply shl_int_one_uint32. lia. }
  rewrite Hr. split.
  - rewrite <- Z.pow_add_r by lia. f_equal. lia.
  - assert (0 < 2 ^ (n - sv)) by (apply Z.pow_pos_nonneg; lia). lia.
Qed.

End SplitPlannerMore.

Lemma compute_split_var_bounds_witness :
  Z.min 40 6 <= compute_split_var (plat := masked_count) 40 14000000 <= 40
  /\ to_uint32 (40 - compute_split_var (plat := masked_count) 40 14000000)
     = 40 - compute_split_var (plat := masked_count) 40 14000000.
Proof.
  apply (compute_split_var_bounds (plat := masked_count) 40 14000000). lia.
Defined.

Lemma compute_split_var_no_gates_witness :
  compute_split_var (plat := masked_count) 40 0 = 40
  /\ compute_round (plat := masked_count) 40
       (compute_split_var (plat := masked_count) 40 0) = 1.
Proof.
  apply (compute_split_var_no_gates (plat := masked_count) 40). lia.
Defined.

Lemma compute_split_var_cap_witness :
  compute_split_var (plat := masked_count) 40 1 <= 31.
Proof.
  apply (compute_split_var_cap (plat := masked_count) 40 1); lia.
Defined.

Lemma compute_split_var_antitone_witness :
  compute_split_var (plat := masked_count) 30 5000
  <= compute_split_var (plat := masked_count) 30 1000.
Proof.
  apply (compute_split_var_antitone (plat := masked_count) 30 1000 5000);
    lia.
Defined.

Lemma rounds_cover_inputs_witness :
  compute_round (plat := masked_count) 37
    (compute_split_var (plat := masked_count) 37 14000000)
  * 2 ^ compute_split_var (plat := masked_count) 37 14000000 = 2 ^ 37
  /\ 1 <= compute_round (plat := masked_count) 37
            (compute_split_var (plat := masked_count) 37 14000000).
Proof.
  apply (rounds_cover_inputs (plat := masked_count) 37 14000000). lia.
Defined.

(** ** Tables as Boolean functions *)

Lemma ones_testbit_low (w k : Z) :
  0 <= k < w -> Z.testbit (Z.ones w) k = true.
Proof. intros Hk. apply Z.ones_spec_low. exact Hk. Qed.

Lemma tt_not_testbit (t : dynamic_truth_table) (k : Z) :
  0 <= k < tt_width (num_vars t) ->
  Z.testbit (bits (tt_not t)) k = negb (Z.testbit (bits t) k).
Proof.
  intros Hk. cbn [tt_not bits].
  rewrite Z.land_spec, Z.lnot_spec, ones_testbit_low by lia.
  apply andb_true_r.
Qed.

(** A table that fits its width is zero exactly when each of its bits
    is. *)
Lemma is_const0_testbit (t : dynamic_truth_table) :
  tt_fits t ->
  (is_const0 t = true
   <-> forall k, 0 <= k < tt_width (num_vars t) ->
         Z.testbit (bits t) k = false).
Proof.
  intros Hfit. unfold is_const0. rewrite Z.eqb_eq. split.
  - intros -> k _. apply Z.bits_0.
  - intros Hbits. apply Z.bits_inj_0. intros k.
    destruct (Z_lt_le_dec k 0) as [Hneg|Hpos];
      [apply Z.testbit_neg_r; exact Hneg|].
    destruct (Z_lt_le_dec k (tt_width (num_vars t))) as [Hlt|Hge].
    + apply Hbits. lia.
    + apply (bits_above _ (tt_width (num_vars t))); assumption.
Qed.

(** A table that fits its width and is not zero has a bit set. *)
Lemma not_const0_testbit (t : dynamic_truth_table) :
  tt_fits t -> is_const0 t = false ->
  exists k, 0 <= k < tt_width (num_vars t) /\ Z.testbit (bits t) k = true.
Proof.
  unfold tt_fits, is_const0. intros Hfit Hnz. apply Z.eqb_neq in Hnz.
  exists (Z.log2 (bits t)). split.
  - split; [apply Z.log2_nonneg|].
    apply (proj1 (Z.log2_lt_pow2 (bits t) _ ltac:(lia))). lia.
  - apply Z.bit_log2. lia.
Qed.

(** A signal reads its assignment only at its own primary inputs. *)
Lemma eval_signal_ext (n : Z) (a a' : Z -> bool) (s : signal) :
  signal_inputs_below n s = true ->
  (forall index, 0 <= index < n -> a index = a' index) ->
  eval_signal a s = eval_signal a' s.
Proof.
  intros Hwf Hagree.
  induction s as [value|index|x IHx|x IHx y IHy|x IHx y IHy];
    cbn [eval_signal signal_inputs_below] in *.
  - reflexivity.
  - apply andb_true_iff in Hwf. destruct Hwf as (Hlo & Hhi).
    apply Z.leb_le in Hlo. apply Z.ltb_lt in Hhi. apply Hagree. lia.
  - rewrite IHx by exact Hwf. reflexivity.
  - apply andb_true_iff in Hwf. destruct Hwf as (Hx & Hy).
    rewrite IHx, IHy by assumption. reflexivity.
  - apply andb_true_iff in Hwf. destruct Hwf as (Hx & Hy).
    rewrite IHx, IHy by assumption. reflexivity.
Qed.

Lemma signal_inputs_below_mono (n m : Z) (s : signal) :
  n <= m -> signal_inputs_below n s = true -> signal_inputs_below m s = true.
Proof.
  intros Hle.
  induction s as [value|index|x IHx|x IHx y IHy|x IHx y IHy];
    cbn [signal_inputs_below]; intros Hwf.
  - reflexivity.
  - apply andb_true_iff in Hwf. destruct Hwf as (Hlo & Hhi).
    apply Z.ltb_lt in Hhi. rewrite Hlo. apply Z.ltb_lt. lia.
  - apply IHx. exact Hwf.
  - apply andb_true_iff in Hwf. destruct Hwf as (Hx & Hy).
    rewrite IHx, IHy by assumption. reflexivity.
  - apply andb_true_iff in Hwf. destruct Hwf as (Hx & Hy).
    rewrite IHx, IHy by assumption. reflexivity.
Qed.

Section TableSemantics.
Context {plat : Platform}.

Lemma compute_constant_testbit (s : part_simulator) (value : bool) (k : Z) :
  0 <= k < 2 ^ split_var s ->
  Z.testbit (bits (compute_constant s value)) k = value.
Proof.
  intros Hk. unfold compute_constant. cbv zeta. destruct value.
  - rewrite tt_not_testbit by exact Hk. cbn [tt_create bits].
    rewrite Z.bits_0. reflexivity.
  - cbn [tt_create bits]. apply Z.bits_0.
Qed.

Lemma compute_pi_testbit (s : part_simulator) (index k : Z) :
  0 <= k < 2 ^ split_var s -> index < split_var s + 32 ->
  Z.testbit (bits (compute_pi s index)) k
  = round_input (split_var s) (round s) k index.
Proof.
  intros Hk Hidx. unfold round_input.
  destruct (Z.ltb_spec index (split_var s)) as [Hlt|Hge].
  - unfold compute_pi. cbv zeta.
    destruct (Z.ltb_spec index (split_var s)); [|lia].
    apply create_nth_var_testbit. exact Hk.
  - unfold compute_pi. cbv zeta.
    destruct (Z.ltb_spec index (split_var s)); [lia|].
    rewrite to_uint32_small by lia.
    rewrite shr_uint32_defined, low_bit_shr by lia.
    destruct (Z.testbit (round s) (index - split_var s)); cbn [Bool.eqb negb].
    + cbn [tt_create bits]. apply Z.bits_0.
    + rewrite tt_not_testbit by exact Hk. cbn [tt_create bits].
      rewrite Z.bits_0. reflexivity.
Qed.

(** The bits of a signal's table, by induction on the signal. *)
Lemma simulate_signal_bit (s : part_simulator) (sig : signal) (k : Z) :
  0 <= k < 2 ^ split_var s ->
  signal_inputs_below (split_var s + 32) sig = true ->
  Z.testbit (bits (simulate_signal s sig)) k
  = eval_signal (round_input (split_var s) (round s) k) sig.
Proof.
  intros Hk.
  induction sig as [value|index|x IHx|x IHx y IHy|x IHx y IHy];
    cbn [simulate_signal eval_signal signal_inputs_below]; intros Hwf.
  - apply compute_constant_testbit. exact Hk.
  - apply andb_true_iff in Hwf. destruct Hwf as (_ & Hhi).
    apply Z.ltb_lt in Hhi. apply compute_pi_testbit; assumption.
  - unfold compute_not. rewrite tt_not_testbit.
    + rewrite IHx by exact Hwf. reflexivity.
    + destruct (simulate_signal_width s x) as (-> & _). exact Hk.
  - apply andb_true_iff in Hwf. destruct Hwf as (Hx & Hy).
    cbn [tt_and bits]. rewrite Z.land_spec, IHx, IHy by assumption.
    reflexivity.
  - apply andb_true_iff in Hwf. destruct Hwf as (Hx & Hy).
    cbn [tt_xor bits]. rewrite Z.lxor_spec, IHx, IHy by assumption.
    reflexivity.
Qed.

(** X6.  The table the evaluator computes for a signal in a round is the
    truth table of the signal's Boolean function over the split inputs:
    it has [split_var] variables, and its bit [k] is the signal's value
    under the assignment in which a split input takes bit [index] of [k]
    and any other input the complement of bit [index - split_var] of the
    round. *)
Theorem simulate_signal_table (s : part_simulator) (sig : signal) :
  signal_inputs_below (split_var s + 32) sig = true ->
  simulate_signal s sig
  = {| num_vars := split_var s;
       bits := tabulate
                 (fun k =>
                    eval_signal (round_input (split_var s) (round s) k) sig)
                 (Z.to_nat (2 ^ split_var s)) |}.
Proof.
  intros Hwf.
  destruct (simulate_signal_width s sig) as (Hv & Hfit).
  unfold tt_fits in Hfit. rewrite Hv in Hfit. unfold tt_width in Hfit.
  destruct (simulate_signal s sig) as [nv b] eqn:E.
  cbn [num_vars bits] in Hv, Hfit. subst nv. f_equal.
  assert (Hw : 0 <= 2 ^ split_var s) by (apply Z.pow_nonneg; lia).
  apply Z.bits_inj'. intros k Hk.
  rewrite tabulate_testbit, Z2Nat.id by lia.
  destruct (Z.ltb_spec k (2 ^ split_var s)) as [Hlt|Hge]; cbn [andb].
  - rewrite <- (simulate_signal_bit s sig k) by (try lia; exact Hwf).
    rewrite E. reflexivity.
  - apply (bits_above b (2 ^ split_var s)); assumption.
Qed.

(** X11.  Complementing twice gives back a table that fits its width. *)
Theorem compute_not_involutive (s : part_simulator) (t : dynamic_truth_table) :
  tt_fits t -> compute_not s (compute_not s t) = t.
Proof.
  intros Hfit. unfold compute_not. destruct t as [nv b].
  unfold tt_fits in Hfit. cbn [num_vars bits] in Hfit.
  unfold tt_not. cbn [num_vars bits]. f_equal.
  pose proof (tt_width_nonneg nv) as Hw.
  apply Z.bits_inj'. intros k Hk.
  destruct (Z_lt_le_dec k (tt_width nv)) as [Hlt|Hge].
  - rewrite !Z.land_spec, Z.lnot_spec, Z.land_spec, Z.lnot_spec,
      ones_testbit_low by lia.
    destruct (Z.testbit b k); reflexivity.
  - rewrite Z.land_spec, Z.ones_spec_high, (bits_above b (tt_width nv))
      by lia.
    apply andb_false_r.
Qed.

End TableSemantics.

Lemma simulate_signal_table_witness :
  simulate_signal (plat := masked_count) {| split_var := 1; round := 2 |}
    (And (Pi 0) (Not (Pi 2)))
  = {| num_vars := 1;
       bits := tabulate
                 (fun k =>
                    eval_signal (round_input 1 2 k) (And (Pi 0) (Not (Pi 2))))
                 (Z.to_nat (2 ^ 1)) |}.
Proof.
  apply (simulate_signal_table (plat := masked_count)
           {| split_var := 1; round := 2 |}).
  reflexivity.
Defined.

Lemma compute_not_involutive_witness :
  compute_not {| split_var := 2; round := 0 |}
    (compute_not {| split_var := 2; round := 0 |}
       {| num_vars := 2; bits := 10 |})
  = {| num_vars := 2; bits := 10 |}.
Proof.
  apply compute_not_involutive. unfold tt_fits. cbn. lia.
Defined.

(** ** The verdict as a statement about Boolean functions *)

Section Verdict.
Context {plat : Platform}.

Lemma split_var_range (n V : Z) :
  0 <= n < 2 ^ 32 - 1 -> Z.min n 6 <= compute_split_var n V <= n.
Proof.
  intros Hn. destruct (Z_le_gt_dec n 6) as [Hs|Hl].
  - unfold compute_split_var. destruct (Z.leb_spec n 6); lia.
  - destruct (compute_split_var_large n V ltac:(lia)) as (Hr & _). lia.
Qed.

Lemma round_count_exact (n sv : Z) :
  0 <= sv <= n -> n - sv <= 31 -> compute_round n sv = 2 ^ (n - sv).
Proof.
  intros Hsv Hd. unfold compute_round.
  rewrite (to_uint32_small (n - sv)) by lia.
  apply shl_int_one_uint32. lia.
Qed.

(** The round and the bit at which an assignment of [n] inputs is
    simulated. *)
Lemma assignment_located (n sv : Z) (a : Z -> bool) :
  0 <= sv <= n ->
  exists i k,
    0 <= i < 2 ^ (n - sv) /\ 0 <= k < 2 ^ sv
    /\ forall index, 0 <= index < n -> round_input sv i k index = a index.
Proof.
  intros Hsv.
  exists (tabulate (fun j => negb (a (sv + j))) (Z.to_nat (n - sv))).
  exists (tabulate a (Z.to_nat sv)).
  pose proof (tabulate_range (fun j => negb (a (sv + j))) (Z.to_nat (n - sv)))
    as Hi.
  pose proof (tabulate_range a (Z.to_nat sv)) as Hk.
  rewrite Z2Nat.id in Hi, Hk by lia.
  split; [exact Hi|]. split; [exact Hk|].
  intros index Hidx. unfold round_input.
  destruct (Z.ltb_spec index sv) as [Hlt|Hge].
  - rewrite tabulate_testbit, Z2Nat.id by lia.
    destruct (Z.ltb_spec index sv); [reflexivity|lia].
  - rewrite tabulate_testbit, Z2Nat.id by lia.
    destruct (Z.ltb_spec (index - sv) (n - sv)); [|lia].
    cbn [andb]. rewrite negb_involutive. f_equal. lia.
Qed.

Lemma network_wf_inputs (ntk : network) :
  network_wf ntk = true ->
  0 <= net_pis ntk
  /\ forall out, In out (net_pos ntk) ->
       signal_inputs_below (net_pis ntk) out = true.
Proof.
  unfold network_wf. intros Hwf. apply andb_true_iff in Hwf.
  destruct Hwf as (Hn & Hpos). apply Z.leb_le in Hn.
  split; [exact Hn|]. apply forallb_forall. exact Hpos.
Qed.

(** A round of a well-formed network is clear exactly when every output
    is false at each of the round's assignments. *)
Lemma round_clear_eval (ntk : network) (sv i : Z) :
  network_wf ntk = true -> net_pis ntk <= sv + 32 ->
  (round_clear ntk sv i = true
   <-> forall k out, 0 <= k < 2 ^ sv -> In out (net_pos ntk) ->
         eval_signal (round_input sv i k) out = false).
Proof.
  intros Hwf Hn. destruct (network_wf_inputs ntk Hwf) as (_ & Hbelow).
  unfold round_clear. rewrite outputs_const0_true.
  cbn [simulate network_Network]. unfold network_simulate.
  set (sim := {| split_var := sv; round := i |}).
  assert (Hbit : forall k out, 0 <= k < 2 ^ sv -> In out (net_pos ntk) ->
            Z.testbit (bits (simulate_signal sim out)) k
            = eval_signal (round_input sv i k) out).
  { intros k out Hk Hin.
    apply (simulate_signal_bit sim out k Hk).
    apply (signal_inputs_below_mono (net_pis ntk)); [exact Hn|].
    apply Hbelow. exact Hin. }
  split.
  - intros Hzero k out Hk Hin. rewrite <- Hbit by assumption.
    assert (Ht : is_const0 (simulate_signal sim out) = true)
      by (apply Hzero; apply in_map; exact Hin).
    destruct (simulate_signal_width sim out) as (Hv & Hfit).
    apply (proj1 (is_const0_testbit _ Hfit) Ht).
    rewrite Hv. exact Hk.
  - intros Hfalse t Hin. apply in_map_iff in Hin.
    destruct Hin as (out & <- & Hin).
    destruct (simulate_signal_width sim out) as (Hv & Hfit).
    apply (is_const0_testbit _ Hfit). intros k Hk. rewrite Hv in Hk.
    rewrite Hbit by assumption. apply Hfalse; assumption.
Qed.

(** The quantities [run] computes on a well-formed network of at most 37
    inputs. *)
Lemma run_plan (ntk : network) :
  network_wf ntk = true -> net_pis ntk <= 37 ->
  let n := to_uint32 (num_pis ntk) in
  let sv := compute_split_var n (to_uint32 (num_gates ntk)) in
  n = net_pis ntk /\ 0 <= sv <= n /\ n - sv <= 31
  /\ compute_round n sv = 2 ^ (n - sv).
Proof.
  intros Hwf Hle n sv. destruct (network_wf_inputs ntk Hwf) as (Hn & _).
  assert (En : n = net_pis ntk).
  { unfold n. cbn [num_pis network_Network]. apply to_uint32_small. lia. }
  pose proof (split_var_range n (to_uint32 (num_gates ntk)) ltac:(lia))
    as Hsv.
  fold sv in Hsv.
  assert (Hd : 0 <= sv <= n /\ n - sv <= 31) by lia.
  split; [exact En|]. split; [tauto|]. split; [tauto|].
  apply round_count_exact; tauto.
Qed.

(** [run] answers [true] exactly when every output is the constant-false
    function. *)
Lemma run_zero_iff (ntk : network) (st : simulation_cec_stats) :
  network_wf ntk = true -> net_pis ntk <= 37 ->
  (fst (run ntk st) = true
   <-> forall a out, In out (net_pos ntk) -> eval_signal a out = false).
Proof.
  intros Hwf Hle.
  destruct (run_plan ntk Hwf Hle) as (En & Hsv & Hd & Hrounds).
  destruct (network_wf_inputs ntk Hwf) as (_ & Hbelow).
  unfold run. cbv zeta. cbn [fst].
  set (n := to_uint32 (num_pis ntk)) in *.
  set (sv := compute_split_var n (to_uint32 (num_gates ntk))) in *.
  set (rounds := compute_round n sv) in *.
  assert (Hn32 : net_pis ntk <= sv + 32) by lia.
  split.
  - intros Htrue a out Hin.
    destruct (assignment_located n sv a Hsv) as (i & k & Hi & Hk & Hagree).
    assert (Hclear : round_clear ntk sv i = true).
    { destruct (round_loop_spec ntk sv rounds (Z.to_nat rounds) 0)
        as [(_ & Hall)|(j & _ & Hloop & _)];
        [rewrite Hrounds; lia
        |rewrite Hrounds; apply Z.pow_lt_mono_r; lia
        |lia| |].
      - apply Hall. rewrite Hrounds. lia.
      - rewrite Hloop in Htrue. discriminate Htrue. }
    rewrite <- (eval_signal_ext (net_pis ntk) (round_input sv i k) a out).
    + apply (proj1 (round_clear_eval ntk sv i Hwf Hn32) Hclear k out Hk Hin).
    + apply Hbelow. exact Hin.
    + intros index Hidx. apply Hagree. lia.
  - intros Hzero. apply round_loop_all_clear. intros j.
    apply (round_clear_eval ntk sv j Hwf Hn32).
    intros k out _ Hin. apply Hzero. exact Hin.
Qed.

(** X7.  On a well-formed network of at most 37 inputs, [run] returns
    [true] exactly when every output is false under every input
    assignment, and [false] exactly when some assignment makes some
    output true. *)
Theorem run_decides_zero (ntk : network) (st : simulation_cec_stats) :
  network_wf ntk = true -> net_pis ntk <= 37 ->
  (fst (run ntk st) = true
   <-> forall a out, In out (net_pos ntk) -> eval_signal a out = false)
  /\ (fst (run ntk st) = false
      <-> exists a out, In out (net_pos ntk) /\ eval_signal a out = true).
Proof.
  intros Hwf Hle. pose proof (run_zero_iff ntk st Hwf Hle) as Hiff.
  split; [exact Hiff|]. split.
  - intros Hfalse.
    destruct (run_plan ntk Hwf Hle) as (En & Hsv & Hd & Hrounds).
    unfold run in Hfalse. cbv zeta in Hfalse. cbn [fst] in Hfalse.
    set (n := to_uint32 (num_pis ntk)) in *.
    set (sv := compute_split_var n (to_uint32 (num_gates ntk))) in *.
    set (rounds := compute_round n sv) in *.
    destruct (round_loop_spec ntk sv rounds (Z.to_nat rounds) 0)
      as [(Hloop & _)|(j & _ & _ & Hbad & _)];
      [rewrite Hrounds; lia
      |rewrite Hrounds; apply Z.pow_lt_mono_r; lia
      |lia| |].
    + rewrite Hloop in Hfalse. discriminate Hfalse.
    + unfold round_clear in Hbad. apply outputs_const0_false in Hbad.
      destruct Hbad as (t & Hin & Hnz).
      cbn [simulate network_Network] in Hin. unfold network_simulate in Hin.
      apply in_map_iff in Hin. destruct Hin as (out & <- & Hin).
      set (sim := {| split_var := sv; round := j |}) in *.
      destruct (simulate_signal_width sim out) as (Hv & Hfit).
      destruct (not_const0_testbit _ Hfit Hnz) as (k & Hk & Hbit).
      rewrite Hv in Hk. change (split_var sim) with sv in Hk.
      exists (round_input sv j k), out. split; [exact Hin|].
      rewrite <- Hbit. symmetry.
      apply (simulate_signal_bit sim out k Hk).
      destruct (network_wf_inputs ntk Hwf) as (_ & Hbelow).
      apply (signal_inputs_below_mono (net_pis ntk));
        [change (split_var sim) with sv; lia|].
      apply Hbelow. exact Hin.
  - intros (a & out & Hin & Htrue).
    destruct (fst (run ntk st)) eqn:E; [|reflexivity].
    rewrite (proj1 Hiff eq_refl a out Hin) in Htrue. discriminate Htrue.
Qed.

Lemma xor_outputs_in (pos1 pos2 : list signal) (s : signal) :
  In s (xor_outputs pos1 pos2) ->
  exists o1 o2, s = Xor o1 o2 /\ In o1 pos1 /\ In o2 pos2.
Proof.
  revert pos2. induction pos1 as [|o1 r1 IH]; intros [|o2 r2] Hin;
    cbn [xor_outputs In] in Hin; try contradiction.
  destruct Hin as [<-|Hin].
  - exists o1, o2. cbn [In]. tauto.
  - destruct (IH r2 Hin) as (x & y & -> & Hx & Hy).
    exists x, y. cbn [In]. tauto.
Qed.

(** The outputs of a miter are all false under an assignment exactly when
    the two output lists agree under it. *)
Lemma xor_outputs_agree (a : Z -> bool) (pos1 pos2 : list signal) :
  length pos1 = length pos2 ->
  ((forall out, In out (xor_outputs pos1 pos2) -> eval_signal a out = false)
   <-> map (eval_signal a) pos1 = map (eval_signal a) pos2).
Proof.
  revert pos2. induction pos1 as [|o1 r1 IH]; intros [|o2 r2] Hlen;
    cbn [length] in Hlen; try discriminate Hlen.
  - cbn. split; [reflexivity|intros _ out []].
  - injection Hlen as Hlen. cbn [xor_outputs map In]. split.
    + intros Hall. f_equal.
      * specialize (Hall (Xor o1 o2) (or_introl eq_refl)).
        cbn [eval_signal] in Hall. apply xorb_eq. exact Hall.
      * apply IH; [exact Hlen|]. intros out Hin. apply Hall. right.
        exact Hin.
    + intros Heq. injection Heq as Hhead Htail.
      intros out [<-|Hin].
      * cbn [eval_signal]. rewrite Hhead. apply xorb_nilpotent.
      * apply (proj2 (IH r2 Hlen) Htail). exact Hin.
Qed.

(** X8.  For two well-formed networks with the same number of inputs (at
    most 37) and of outputs, [simulation_cec] returns the present value
    [true] exactly when the two networks compute the same outputs under
    every input assignment. *)
Theorem simulation_cec_decides
  (ntk1 ntk2 : network) (pst : option simulation_cec_stats) :
  network_wf ntk1 = true -> network_wf ntk2 = true ->
  net_pis ntk1 = net_pis ntk2 -> net_pis ntk1 <= 37 ->
  length (net_pos ntk1) = length (net_pos ntk2) ->
  (fst (simulation_cec ntk1 ntk2 pst) = Some true
   <-> forall a,
         map (eval_signal a) (net_pos ntk1)
         = map (eval_signal a) (net_pos ntk2)).
Proof.
  intros Hwf1 Hwf2 Hpis Hle Hlen.
  set (m := {| net_pis := net_pis ntk1;
               net_pos := xor_outputs (net_pos ntk1) (net_pos ntk2) |}).
  assert (Hm : miter ntk1 ntk2 = Some m).
  { cbn [miter network_Network]. unfold network_miter.
    rewrite Hpis, Z.eqb_refl, Hlen, Nat.eqb_refl. cbn [andb].
    unfold m. rewrite Hpis. reflexivity. }
  assert (Hwfm : network_wf m = true).
  { destruct (network_wf_inputs ntk1 Hwf1) as (Hn & Hb1).
    destruct (network_wf_inputs ntk2 Hwf2) as (_ & Hb2).
    unfold network_wf. cbn [net_pis net_pos m].
    apply andb_true_iff. split; [apply Z.leb_le; exact Hn|].
    apply forallb_forall. intros s Hin.
    destruct (xor_outputs_in _ _ s Hin) as (o1 & o2 & -> & H1 & H2).
    cbn [signal_inputs_below]. rewrite (Hb1 o1 H1).
    rewrite Hpis. rewrite (Hb2 o2 H2). reflexivity. }
  assert (Hres : fst (simulation_cec ntk1 ntk2 pst)
                 = Some (fst (run m default_stats))).
  { unfold simulation_cec. cbv zeta.
    change (num_pis ntk1) with (net_pis ntk1).
    destruct (Z.ltb_spec 40 (net_pis ntk1)); [lia|].
    rewrite Hm. destruct (run m default_stats) as [res st].
    destruct pst; reflexivity. }
  rewrite Hres.
  pose proof (run_zero_iff m default_stats Hwfm Hle) as Hiff.
  cbn [net_pos m] in Hiff. split.
  - intros Htrue a. injection Htrue as Htrue.
    apply (xor_outputs_agree a _ _ Hlen).
    intros out Hin. apply (proj1 Hiff Htrue a out Hin).
  - intros Hagree. f_equal. apply (proj2 Hiff).
    intros a out Hin. apply (proj2 (xor_outputs_agree a _ _ Hlen) (Hagree a)).
    exact Hin.
Qed.

(** *** Exchanging the two networks *)

Lemma xor_outputs_gates (pos1 pos2 : list signal) :
  fold_right (fun s acc => signal_gates s + acc) 0 (xor_outputs pos1 pos2)
  = fold_right (fun s acc => signal_gates s + acc) 0 (xor_outputs pos2 pos1).
Proof.
  revert pos2. induction pos1 as [|o1 r1 IH]; intros [|o2 r2];
    cbn [xor_outputs fold_right signal_gates]; try reflexivity.
  rewrite (IH r2). lia.
Qed.

Lemma xor_outputs_simulate (sim : part_simulator) (pos1 pos2 : list signal) :
  map (simulate_signal sim) (xor_outputs pos1 pos2)
  = map (simulate_signal sim) (xor_outputs pos2 pos1).
Proof.
  revert pos2. induction pos1 as [|o1 r1 IH]; intros [|o2 r2];
    cbn [xor_outputs map simulate_signal]; try reflexivity.
  rewrite (IH r2). f_equal. unfold tt_xor.
  destruct (simulate_signal_width sim o1) as (-> & _).
  destruct (simulate_signal_width sim o2) as (-> & _).
  rewrite Z.lxor_comm. reflexivity.
Qed.

(** The loop sees a network only through the tables of its rounds. *)
Lemma round_loop_ext (m m' : network) (sv rounds : Z) (fuel : nat) (i : Z) :
  (forall sim, simulate m sim = simulate m' sim) ->
  round_loop fuel m sv rounds i = round_loop fuel m' sv rounds i.
Proof.
  intros Hsame. revert i. induction fuel as [|fuel IH]; intros i;
    cbn [round_loop]; [reflexivity|].
  rewrite Hsame, IH. reflexivity.
Qed.

(** X10.  When both networks have at most 40 inputs, exchanging them
    changes neither the verdict nor the statistics. *)
Theorem simulation_cec_symmetric
  (ntk1 ntk2 : network) (pst : option simulation_cec_stats) :
  num_pis ntk1 <= 40 -> num_pis ntk2 <= 40 ->
  simulation_cec ntk1 ntk2 pst = simulation_cec ntk2 ntk1 pst.
Proof.
  intros H1 H2. unfold simulation_cec. cbv zeta.
  destruct (Z.ltb_spec 40 (num_pis ntk1)); [lia|].
  destruct (Z.ltb_spec 40 (num_pis ntk2)); [lia|].
  cbn [miter network_Network]. unfold network_miter.
  rewrite (Z.eqb_sym (net_pis ntk2)), (Nat.eqb_sym (length (net_pos ntk2))).
  destruct (Z.eqb_spec (net_pis ntk1) (net_pis ntk2)) as [Hpis|];
    [|reflexivity].
  destruct (length (net_pos ntk1) =? length (net_pos ntk2))%nat;
    [|reflexivity].
  cbn [andb]. rewrite <- Hpis.
  set (m := {| net_pis := net_pis ntk1;
               net_pos := xor_outputs (net_pos ntk1) (net_pos ntk2) |}).
  set (m' := {| net_pis := net_pis ntk1;
                net_pos := xor_outputs (net_pos ntk2) (net_pos ntk1) |}).
  assert (Hrun : run m default_stats = run m' default_stats).
  { unfold run. cbv zeta.
    assert (Hg : num_gates m = num_gates m')
      by (cbn [num_gates network_Network]; unfold network_gates;
          apply xor_outputs_gates).
    rewrite Hg. change (num_pis m) with (num_pis m').
    rewrite (round_loop_ext m m'); [reflexivity|].
    intros sim. cbn [simulate network_Network]. unfold network_simulate.
    apply xor_outputs_simulate. }
  rewrite Hrun. reflexivity.
Qed.

End Verdict.

(** ** The entry point on any network type *)

Section EntryPoint.
Context {plat : Platform} {Ntk : Type} {net : Network Ntk}.

(** X9.  [simulation_cec] returns the absent optional exactly when the
    first network has more than 40 primary inputs; otherwise a verdict is
    present, with or without a miter. *)
Theorem simulation_cec_absent_iff
  (ntk1 ntk2 : Ntk) (pst : option simulation_cec_stats) :
  fst (simulation_cec ntk1 ntk2 pst) = None <-> 40 < num_pis ntk1.
Proof.
  unfold simulation_cec. cbv zeta.
  destruct (Z.ltb_spec 40 (num_pis ntk1)) as [Hgt|Hle].
  - cbn [fst]. tauto.
  - destruct (miter ntk1 ntk2) as [m|].
    + destruct (run m default_stats) as [res st]. cbn [fst].
      split; [discriminate|lia].
    + cbn [fst]. split; [discriminate|lia].
Qed.

(** X12.  The verdict does not depend on the statistics pointer; a null
    pointer stays null; and up to 40 inputs a caller's object is always
    overwritten, with statistics that do not depend on what it held. *)
Theorem simulation_cec_stats_pointer
  (ntk1 ntk2 : Ntk) (pst : option simulation_cec_stats) :
  fst (simulation_cec ntk1 ntk2 pst) = fst (simulation_cec ntk1 ntk2 None)
  /\ snd (simulation_cec ntk1 ntk2 None) = None
  /\ (num_pis ntk1 <= 40 ->
      forall st0, exists st,
        snd (simulation_cec ntk1 ntk2 (Some st0)) = Some st
        /\ snd (simulation_cec ntk1 ntk2 (Some default_stats)) = Some st).
Proof.
  unfold simulation_cec. cbv zeta.
  destruct (Z.ltb_spec 40 (num_pis ntk1)) as [Hgt|Hle].
  - repeat split; try reflexivity. lia.
  - destruct (miter ntk1 ntk2) as [m|].
    + destruct (run m default_stats) as [res st].
      repeat split; try (destruct pst; reflexivity).
      intros _ st0. exists st. split; reflexivity.
    + repeat split; try (destruct pst; reflexivity).
      intros _ st0. exists default_stats. split; reflexivity.
Qed.

End EntryPoint.

Section MoreScenarios.
#[local] Existing Instance masked_count.

Lemma run_decides_zero_witness :
  (fst (run and2 default_stats) = true
   <-> forall a out, In out (net_pos and2) -> eval_signal a out = false)
  /\ (fst (run and2 default_stats) = false
      <-> exists a out, In out (net_pos and2) /\ eval_signal a out = true).
Proof.
  apply (run_decides_zero and2 default_stats);
    [reflexivity|apply Z.leb_le; reflexivity].
Defined.

Lemma simulation_cec_decides_witness :
  fst (simulation_cec and2 or2 None) = Some true
  <-> forall a,
        map (eval_signal a) (net_pos and2) = map (eval_signal a) (net_pos or2).
Proof.
  apply (simulation_cec_decides and2 or2 None);
    [reflexivity|reflexivity|reflexivity|apply Z.leb_le; reflexivity
    |reflexivity].
Defined.

Lemma simulation_cec_symmetric_witness :
  simulation_cec and2 or2 (Some default_stats)
  = simulation_cec or2 and2 (Some default_stats).
Proof.
  apply (simulation_cec_symmetric and2 or2); apply Z.leb_le; reflexivity.
Defined.

End MoreScenarios.
